(** * MaskConfig: typed accessors over the CAMOU_CONFIG JSON document

    A shallow embedding of [additions/camoucfg/MaskConfig.hpp].  The header
    reads the environment variables CAMOU_CONFIG_1, CAMOU_CONFIG_2, ... (or
    CAMOU_CONFIG), parses the text once with simdjson's DOM parser and offers
    typed getters over the resulting tree.

    Conventions of the embedding:
    - a [std::optional<T>] is an [option]; a simdjson result is an [option]
      too, since the header only ever tests whether the error code is zero;
    - machine integers are [Z], with the casts of the header written out;
    - [double] is Rocq's primitive binary64 [float];
    - [printf_stderr] calls are recorded in a list of [diagnostic]s;
    - the static [root] of [GetJson] is passed to every getter as [data]. *)

From Stdlib Require Import ZArith Floats Ascii String.
From stdpp Require Import gmap strings list pretty.

Set Warnings "-register-all".

Local Open Scope Z_scope.

(** ** Limits of the fixed-width integer types *)

Definition INT32_MIN : Z := -2147483648.
Definition INT32_MAX : Z := 2147483647.
Definition UINT32_MAX : Z := 4294967295.
Definition INT64_MIN : Z := -9223372036854775808.
Definition INT64_MAX : Z := 9223372036854775807.
Definition UINT64_MAX : Z := 18446744073709551615.

(** Conversion of a 64-bit integer to [double] (round to nearest even), the
    meaning of [double(x)] and [static_cast<double>(x)] on an integer. *)
Definition double_of_Z (z : Z) : float :=
  SF2Prim (binary_normalize 53 1024 z 0 false).

(** ** The simdjson DOM, as far as the header uses it *)

Module simdjson.

(** [dom::element]: one node of the parsed tape.  The parser stores an
    integer literal as INT64 when it fits, as UINT64 when it is positive and
    only fits 64 unsigned bits, and a literal with a fraction or exponent as
    DOUBLE.  An object keeps its fields in document order, duplicates
    included. *)
Inductive element : Type :=
| JNull
| JBool (b : bool)
| JInt64 (i : Z)
| JUint64 (u : Z)
| JDouble (d : float)
| JString (s : string)
| JArray (a : list element)
| JObject (o : list (string * element)).

(** The integers a tape can hold. *)
Definition wf_scalar (el : element) : bool :=
  match el with
  | JInt64 i => (INT64_MIN <=? i) && (i <=? INT64_MAX)
  | JUint64 u => (0 <=? u) && (u <=? UINT64_MAX)
  | _ => true
  end.

Definition is_null (el : element) : bool :=
  match el with JNull => true | _ => false end.

(** [element::get(bool&)] *)
Definition get_bool (el : element) : option bool :=
  match el with JBool b => Some b | _ => None end.

(** [element::get(std::string_view&)] *)
Definition get_string (el : element) : option string :=
  match el with JString s => Some s | _ => None end.

(** [element::get(int64_t&)]: a UINT64 node is accepted when it does not
    exceed the largest int64. *)
Definition get_int64 (el : element) : option Z :=
  match el with
  | JInt64 i => Some i
  | JUint64 u => if INT64_MAX <? u then None else Some u
  | _ => None
  end.

(** [element::get(uint64_t&)]: an INT64 node is accepted when it is not
    negative. *)
Definition get_uint64 (el : element) : option Z :=
  match el with
  | JUint64 u => Some u
  | JInt64 i => if i <? 0 then None else Some i
  | _ => None
  end.

(** [element::get(double&)]: a DOUBLE node is returned as it is, and an
    integer node of either encoding is converted. *)
Definition get_double (el : element) : option float :=
  match el with
  | JDouble d => Some d
  | JUint64 u => Some (double_of_Z u)
  | JInt64 i => Some (double_of_Z i)
  | _ => None
  end.

(** [element::get(dom::array&)] *)
Definition get_array (el : element) : option (list element) :=
  match el with JArray a => Some a | _ => None end.

(** [element::get(dom::object&)] *)
Definition get_object (el : element) : option (list (string * element)) :=
  match el with JObject o => Some o | _ => None end.

(** [object::at_key]: the value of the first field with that key. *)
Fixpoint at_key (o : list (string * element)) (key : string) : option element :=
  match o with
  | [] => None
  | (k, v) :: rest => if decide (k = key) then Some v else at_key rest key
  end.

End simdjson.
Import simdjson.

(** ** Diagnostics written with [printf_stderr] *)

Inductive diagnostic : Type :=
| InvalidJson
    (* "ERROR: Invalid JSON passed to CAMOU_CONFIG!\n" *)
| RectIncomplete (width height : string)
    (* "Both %s and %s must be provided. Using default behavior.\n" *).

(** ** Reading the environment *)

(** [s.empty()], and the tests for a count of 0 characters. *)
Definition string_empty (s : string) : bool :=
  match s with EmptyString => true | _ => false end.

(** The process environment: the variables that are set, each with its
    value as UTF-8 text (under Windows the UTF-8 rendering of the stored
    UTF-16 value, which is what [WideCharToMultiByte] yields).

    [get_env_utf8] has two bodies, chosen by [_WIN32]; [win32] says which one
    is compiled.
    - Without [_WIN32]: [std::getenv], nothing for a variable that is not
      set and the value otherwise, the empty value included.
    - With [_WIN32]: [GetEnvironmentVariableW] without a buffer returns 0
      for a variable that is not set ([size == 0]); called with the buffer it
      returns the number of characters it stored, the terminator not counted,
      which is 0 for a variable set to the empty text ([result == 0]).  In
      both cases the function returns nothing.  For any other value
      [result < size] holds, the conversion returns a positive size, and the
      value comes back as UTF-8. *)
Definition get_env_utf8 (win32 : bool) (env : gmap string string) (name : string)
    : option string :=
  if win32 then
    match env !! name with
    | None => None
    | Some value => if string_empty value then None else Some value
    end
  else env !! name.

(** The [while (true)] loop of [GetJson]: it asks for CAMOU_CONFIG_<index>
    and stops at the first name for which [get_env_utf8] returns nothing.  [fuel] bounds the number of
    iterations; [None] means the bound was reached. *)
Fixpoint read_parts (win32 : bool) (env : gmap string string) (fuel : nat)
    (index : nat) (parts : list string) : option (list string) :=
  match fuel with
  | O => None
  | S fuel' =>
      let envName := "CAMOU_CONFIG_" +:+ pretty index in
      match get_env_utf8 win32 env envName with
      | None => Some parts
      | Some partial => read_parts win32 env fuel' (S index) (parts ++ [partial])
      end
  end.

(** [for (const auto& p : parts) jsonString += p;] *)
Definition join_parts (parts : list string) : string :=
  fold_left (λ jsonString p, jsonString +:+ p) parts "".

(** The text handed to the parser: the joined parts, or CAMOU_CONFIG when
    the joined text is empty. *)
Definition assemble (win32 : bool) (env : gmap string string) : option string :=
  parts ← read_parts win32 env (S (size env)) 1%nat [];
  let jsonString := join_parts parts in
  Some (if string_empty jsonString
        then match get_env_utf8 win32 env "CAMOU_CONFIG" with
             | Some original => original
             | None => jsonString
             end
        else jsonString).

Section GetJson.

(** [parser.parse]: the external parser, a document root or an error. *)
Variable parse : string → option element.
(** The default-constructed static [root]. *)
Variable root_init : element.

(** [(void)parser.parse(text).get(root)]: on an error [root] is left as
    it was. *)
Definition parse_into (text : string) (root : element) : element :=
  match parse text with
  | Some r => r
  | None => root
  end.

(** The body run by [std::call_once]: the root it leaves behind and what
    it printed. *)
Definition GetJson (win32 : bool) (env : gmap string string)
    : option (element * list diagnostic) :=
  jsonString ← assemble win32 env;
  if string_empty jsonString
  then Some (parse_into "{}" root_init, [])
  else match parse jsonString with
       | Some r => Some (r, [])
       | None => Some (parse_into "{}" root_init, [InvalidJson])
       end.

End GetJson.

(** ** Root-level getters *)

Definition GetString (data : element) (key : string) : option string :=
  obj ← get_object data;
  el ← at_key obj key;
  get_string el.

(** The [for] loop of [GetStringList]: a string element is appended, any
    other element is passed over. *)
Definition GetStringList_loop (arr : list element) : list string :=
  fold_left
    (λ result v, match get_string v with
                 | Some sv => result ++ [sv]
                 | None => result
                 end)
    arr [].

Definition GetStringList (data : element) (key : string) : list string :=
  match get_object data with
  | None => []
  | Some obj =>
      match at_key obj key with
      | None => []
      | Some el =>
          match get_array el with
          | None => []
          | Some arr => GetStringList_loop arr
          end
      end
  end.

(** [std::tolower] on an [unsigned char], in the "C" locale the process
    starts in: the letters A..Z are moved to a..z. *)
Definition tolower (c : ascii) : ascii :=
  let n := nat_of_ascii c in
  if ((65 <=? n) && (n <=? 90))%nat then ascii_of_nat (n + 32) else c.

(** [std::transform(s.begin(), s.end(), s.begin(), tolower)] *)
Fixpoint transform_tolower (s : string) : string :=
  match s with
  | EmptyString => EmptyString
  | String c rest => String (tolower c) (transform_tolower rest)
  end.

(** [cache.emplace(key, value)]: inserts only when the key has no entry;
    returns the map and the entry the returned iterator points to. *)
Definition emplace (key : string) (value : list string)
    (cache : gmap string (list string)) : gmap string (list string) * list string :=
  match cache !! key with
  | Some existing => (cache, existing)
  | None => (<[key := value]> cache, value)
  end.

(** [GetStringListLower], with the static [cache] passed in and out. *)
Definition GetStringListLower (data : element) (cache : gmap string (list string))
    (key : string) : list string * gmap string (list string) :=
  match cache !! key with
  | Some cached => (cached, cache)
  | None =>
      let result := transform_tolower <$> GetStringList data key in
      let '(cache', entry) := emplace key result cache in
      (entry, cache')
  end.

(** A run of calls of [GetStringListLower], one per key in [keys], each
    starting from the cache the previous one left. *)
Definition run_calls (data : element) (cache : gmap string (list string))
    (keys : list string) : gmap string (list string) :=
  fold_left (λ c key, (GetStringListLower data c key).2) keys cache.

(** ** C++ types the templates are instantiated with *)

Inductive ctype : Type :=
| c_bool
| c_int8_t | c_int16_t | c_int32_t | c_int64_t
| c_uint8_t | c_uint16_t | c_uint32_t | c_uint64_t
| c_double
| c_string
| c_other.

Definition is_same_bool (T : ctype) : bool :=
  match T with c_bool => true | _ => false end.

Definition is_same_string (T : ctype) : bool :=
  match T with c_string => true | _ => false end.

(** [std::is_integral_v]: [bool] is an integral type. *)
Definition is_integral (T : ctype) : bool :=
  match T with
  | c_bool
  | c_int8_t | c_int16_t | c_int32_t | c_int64_t
  | c_uint8_t | c_uint16_t | c_uint32_t | c_uint64_t => true
  | _ => false
  end.

(** [std::is_signed_v]: true of signed arithmetic types. *)
Definition is_signed (T : ctype) : bool :=
  match T with
  | c_int8_t | c_int16_t | c_int32_t | c_int64_t | c_double => true
  | _ => false
  end.

(** [std::is_unsigned_v]: true of unsigned arithmetic types, [bool] among
    them. *)
Definition is_unsigned (T : ctype) : bool :=
  match T with
  | c_bool | c_uint8_t | c_uint16_t | c_uint32_t | c_uint64_t => true
  | _ => false
  end.

Definition is_floating_point (T : ctype) : bool :=
  match T with c_double => true | _ => false end.

(** Width in bits of an integral type other than [bool]. *)
Definition bit_width (T : ctype) : Z :=
  match T with
  | c_int8_t | c_uint8_t => 8
  | c_int16_t | c_uint16_t => 16
  | c_int32_t | c_uint32_t => 32
  | _ => 64
  end.

(** [std::numeric_limits<T>::min()] of an integral type. *)
Definition numeric_limits_min (T : ctype) : Z :=
  if is_integral T && is_signed T then - 2 ^ (bit_width T - 1) else 0.

(** [std::numeric_limits<T>::max()] of an integral type; [true] for [bool]. *)
Definition numeric_limits_max (T : ctype) : Z :=
  if is_same_bool T then 1
  else if is_signed T then 2 ^ (bit_width T - 1) - 1
  else 2 ^ bit_width T - 1.

(** [static_cast<T>(z)] to an integral type, as an integer: reduction
    modulo 2^width, and [z != 0] for [bool]. *)
Definition wrap_to (T : ctype) (z : Z) : Z :=
  if is_same_bool T then (if z =? 0 then 0 else 1)
  else if is_signed T
       then (z + 2 ^ (bit_width T - 1)) `mod` 2 ^ bit_width T - 2 ^ (bit_width T - 1)
       else z `mod` 2 ^ bit_width T.

(** A value of one of the types above. *)
Inductive cvalue : Type :=
| v_bool (b : bool)
| v_int (z : Z)
| v_double (d : float)
| v_string (s : string).

(** [static_cast<T>(z)] as a value of [T]. *)
Definition static_cast (T : ctype) (z : Z) : cvalue :=
  if is_same_bool T then v_bool (negb (z =? 0)) else v_int (wrap_to T z).

(** ** Integer, floating and boolean getters *)

Definition GetUintImpl (T : ctype) (data : element) (key : string) : option Z :=
  obj ← get_object data;
  el ← at_key obj key;
  match get_uint64 el with
  | Some u =>
      if numeric_limits_max T <? u then None else Some (wrap_to T u)
  | None =>
      (* Allow signed integers if non-negative *)
      match get_int64 el with
      | Some i =>
          if 0 <=? i
          then if numeric_limits_max T <? i `mod` 2 ^ 64 then None
               else Some (wrap_to T i)
          else None
      | None => None
      end
  end.

Definition GetUint64 (data : element) (key : string) : option Z :=
  GetUintImpl c_uint64_t data key.

Definition GetUint32 (data : element) (key : string) : option Z :=
  GetUintImpl c_uint32_t data key.

Definition GetInt32 (data : element) (key : string) : option Z :=
  obj ← get_object data;
  el ← at_key obj key;
  v ← get_int64 el;
  if (v <? INT32_MIN) || (INT32_MAX <? v) then None
  else Some (wrap_to c_int32_t v).

Definition GetDouble (data : element) (key : string) : option float :=
  obj ← get_object data;
  el ← at_key obj key;
  match get_double el with
  | Some d => Some d
  | None =>
      (* Allow integer numbers as doubles *)
      match get_int64 el with
      | Some i => Some (double_of_Z i)
      | None =>
          match get_uint64 el with
          | Some u => Some (double_of_Z u)
          | None => None
          end
      end
  end.

Definition GetBool (data : element) (key : string) : option bool :=
  obj ← get_object data;
  el ← at_key obj key;
  get_bool el.

Definition CheckBool (data : element) (key : string) : bool :=
  default false (GetBool data key).

(** ** Rectangles *)

(** [std::array<uint32_t, 4>] as the list of its four entries. *)
Definition GetRect (data : element) (left top width height : string)
    : option (list Z) * list diagnostic :=
  let leftOpt := GetUint32 data left in
  let topOpt := GetUint32 data top in
  let widthOpt := GetUint32 data width in
  let heightOpt := GetUint32 data height in
  if negb (bool_decide (is_Some widthOpt)) || negb (bool_decide (is_Some heightOpt))
  then (None,
        if xorb (bool_decide (is_Some widthOpt)) (bool_decide (is_Some heightOpt))
        then [RectIncomplete width height]
        else [])
  else (w ← widthOpt; h ← heightOpt;
        Some [default 0 leftOpt; default 0 topOpt; w; h],
        []).

(** The [for] loop of [GetInt32Rect]: [None] as soon as an entry exceeds
    the largest int32. *)
Fixpoint GetInt32Rect_loop (values : list Z) : option (list Z) :=
  match values with
  | [] => Some []
  | v :: rest =>
      if INT32_MAX <? v then None
      else (wrap_to c_int32_t v ::.) <$> GetInt32Rect_loop rest
  end.

Definition GetInt32Rect (data : element) (left top width height : string)
    : option (list Z) * list diagnostic :=
  match GetRect data left top width height with
  | (Some optValue, out) => (GetInt32Rect_loop optValue, out)
  | (None, out) => (None, out)
  end.

(** ** Helpers for WebGL *)

Definition GetNested (data : element) (domain keyStr : string) : option element :=
  rootObj ← get_object data;
  domainEl ← at_key rootObj domain;
  domainObj ← get_object domainEl;
  at_key domainObj keyStr.

Definition GetAttribute (T : ctype) (data : element) (attrib : string)
    (isWebGL2 : bool) : option cvalue :=
  value ← GetNested data
    (if isWebGL2 then "webGl2:contextAttributes" else "webGl:contextAttributes")
    attrib;
  if is_same_bool T then
    b ← get_bool value; Some (v_bool b)
  else if is_integral T && is_signed T then
    i ← get_int64 value;
    if (i <? numeric_limits_min T) || (numeric_limits_max T <? i) then None
    else Some (static_cast T i)
  else if is_integral T && is_unsigned T then
    u ← get_uint64 value;
    if numeric_limits_max T <? u then None
    else Some (static_cast T u)
  else if is_floating_point T then
    d ← get_double value; Some (v_double d)
  else if is_same_string T then
    sv ← get_string value; Some (v_string sv)
  else None.

(** The alternatives of the [std::variant] returned by [GLParam]. *)
Inductive gl_variant : Type :=
| gl_int64 (i : Z)
| gl_bool (b : bool)
| gl_double (d : float)
| gl_string (s : string)
| gl_nullptr.

Definition GLParam (data : element) (pname : N) (isWebGL2 : bool) : option gl_variant :=
  el ← GetNested data
    (if isWebGL2 then "webGl2:parameters" else "webGl:parameters")
    (pretty pname);
  if is_null el then Some gl_nullptr
  else
    (* Try string first *)
    match get_string el with
    | Some sv => Some (gl_string sv)
    | None =>
        (* Try double *)
        match get_double el with
        | Some d => Some (gl_double d)
        | None =>
            (* Try integer *)
            match get_int64 el with
            | Some i => Some (gl_int64 i)
            | None =>
                (* Try bool last *)
                match get_bool el with
                | Some b => Some (gl_bool b)
                | None => None
                end
            end
        end
    end.

Definition MParamGL (T : ctype) (data : element) (pname : N)
    (defaultValue : cvalue) (isWebGL2 : bool) : cvalue :=
  match GetNested data
          (if isWebGL2 then "webGl2:parameters" else "webGl:parameters")
          (pretty pname) with
  | None => defaultValue
  | Some value =>
      if is_same_bool T then
        match get_bool value with
        | None => defaultValue
        | Some b => v_bool b
        end
      else if is_integral T && is_signed T then
        match get_int64 value with
        | None => defaultValue
        | Some i =>
            if (i <? numeric_limits_min T) || (numeric_limits_max T <? i)
            then defaultValue
            else static_cast T i
        end
      else if is_integral T && is_unsigned T then
        match get_uint64 value with
        | None => defaultValue
        | Some u =>
            if numeric_limits_max T <? u then defaultValue
            else static_cast T u
        end
      else if is_floating_point T then
        match get_double value with
        | None => defaultValue
        | Some d => v_double d
        end
      else if is_same_string T then
        match get_string value with
        | None => defaultValue
        | Some sv => v_string sv
        end
      else defaultValue
  end.

(** One turn of the [for] loop of [MParamGLVector]: the value pushed onto
    [out], or [None] where the loop leaves with [return defaultValue]. *)
Definition MParamGLVector_element (T : ctype) (v : element) : option cvalue :=
  if is_integral T && is_signed T then
    i ← get_int64 v;
    if (i <? numeric_limits_min T) || (numeric_limits_max T <? i) then None
    else Some (static_cast T i)
  else if is_integral T && is_unsigned T then
    u ← get_uint64 v;
    if numeric_limits_max T <? u then None
    else Some (static_cast T u)
  else if is_floating_point T then
    d ← get_double v; Some (v_double d)
  else if is_same_bool T then
    b ← get_bool v; Some (v_bool b)
  else if is_same_string T then
    sv ← get_string v; Some (v_string sv)
  else None.

(** The loop: [None] where it returned [defaultValue], otherwise the
    vector [out] it built. *)
Fixpoint MParamGLVector_loop (T : ctype) (arr : list element) (out : list cvalue)
    : option (list cvalue) :=
  match arr with
  | [] => Some out
  | v :: rest =>
      match MParamGLVector_element T v with
      | None => None
      | Some x => MParamGLVector_loop T rest (out ++ [x])
      end
  end.

Definition MParamGLVector (T : ctype) (data : element) (pname : N)
    (defaultValue : list cvalue) (isWebGL2 : bool) : list cvalue :=
  match GetNested data
          (if isWebGL2 then "webGl2:parameters" else "webGl:parameters")
          (pretty pname) with
  | None => defaultValue
  | Some value =>
      match get_array value with
      | None => defaultValue
      | Some arr => default defaultValue (MParamGLVector_loop T arr [])
      end
  end.

Definition MShaderData (data : element) (shaderType precisionType : N)
    (isWebGL2 : bool) : option (list Z) :=
  let valueName := pretty shaderType +:+ "," +:+ pretty precisionType in
  value ← GetNested data
    (if isWebGL2 then "webGl2:shaderPrecisionFormats"
     else "webGl:shaderPrecisionFormats")
    valueName;
  obj ← get_object value;
  eMin ← at_key obj "rangeMin";
  eMax ← at_key obj "rangeMax";
  ePrec ← at_key obj "precision";
  rmin ← get_int64 eMin;
  rmax ← get_int64 eMax;
  prec ← get_int64 ePrec;
  if (rmin <? INT32_MIN) || (INT32_MAX <? rmin) then None
  else if (rmax <? INT32_MIN) || (INT32_MAX <? rmax) then None
  else if (prec <? INT32_MIN) || (INT32_MAX <? prec) then None
  else Some [wrap_to c_int32_t rmin; wrap_to c_int32_t rmax; wrap_to c_int32_t prec].

(** ** Voices *)

(** [std::tuple<std::string, std::string, std::string, bool, bool>] *)
Definition voice : Type := string * string * string * bool * bool.

(** One turn of the [for] loop of [MVoices]: the tuple appended to
    [voices], or [None] where the loop says [continue]. *)
Definition MVoices_entry (voiceEl : element) : option voice :=
  vObj ← get_object voiceEl;
  langEl ← at_key vObj "lang";
  nameEl ← at_key vObj "name";
  uriEl ← at_key vObj "voiceUri";
  defEl ← at_key vObj "isDefault";
  localEl ← at_key vObj "isLocalService";
  lang ← get_string langEl;
  name ← get_string nameEl;
  uri ← get_string uriEl;
  isDefault ← get_bool defEl;
  isLocal ← get_bool localEl;
  Some (lang, name, uri, isDefault, isLocal).

Definition MVoices_loop (voicesArr : list element) : list voice :=
  fold_left
    (λ voices voiceEl, match MVoices_entry voiceEl with
                       | Some v => voices ++ [v]
                       | None => voices
                       end)
    voicesArr [].

Definition MVoices (data : element) : option (list voice) :=
  rootObj ← get_object data;
  voicesEl ← at_key rootObj "voices";
  voicesArr ← get_array voicesEl;
  Some (MVoices_loop voicesArr).

(** * Vocabulary of the statements and sample documents *)

(** A document whose key "fonts" holds strings mixed with numbers, a
    boolean and a nested array. *)
Definition mixed_list_doc : element :=
  JObject [("fonts",
            JArray [JString "Arial"; JInt64 12; JString "Courier";
                    JDouble 1.5; JBool true; JArray [JString "nested"];
                    JString "Times"])].

(** A well-formed entry of the "voices" array. *)
Definition voice_entry (lang name uri : string) (isDefault isLocal : bool) : element :=
  JObject [("lang", JString lang); ("name", JString name);
           ("voiceUri", JString uri); ("isDefault", JBool isDefault);
           ("isLocalService", JBool isLocal)].


(** The key holds a JSON integer [v], in the signed or in the unsigned
    encoding. *)
Definition holds_integer (data : element) (key : string) (v : Z) : Prop :=
  ∃ obj el, data = JObject obj ∧ at_key obj key = Some el
            ∧ (el = JInt64 v ∨ el = JUint64 v).

(** The value under the key, if there is one, is a tape value. *)
Definition wf_at (data : element) (key : string) : Prop :=
  ∀ obj el, data = JObject obj → at_key obj key = Some el → wf_scalar el = true.

(** A screen description with a 32-bit width and a 64-bit-only height. *)
Definition screen_doc : element :=
  JObject [("screen.width", JInt64 4294967295);
           ("screen.height", JUint64 18446744073709551615)].

(** A window description: outer size complete with a position, inner
    size complete without one, and a screen size that lacks its height. *)
Definition window_doc : element :=
  JObject [("window.screenX", JInt64 10); ("window.screenY", JInt64 20);
           ("window.outerWidth", JInt64 1280); ("window.outerHeight", JInt64 720);
           ("window.innerWidth", JInt64 1264); ("window.innerHeight", JInt64 633);
           ("screen.width", JInt64 1920); ("screen.height", JString "1080")].

(** Every entry of the cache is the lowercased list of its key. *)
Definition cache_ok (data : element) (cache : gmap string (list string)) : Prop :=
  ∀ k v, cache !! k = Some v → v = transform_tolower <$> GetStringList data k.

(** The name of the [index]-th shard. *)
Definition shard_name (index : nat) : string := "CAMOU_CONFIG_" +:+ pretty index.

(** Every getter of the header reports "not there": nothing, the empty
    list, [false], or the default the caller passed. *)
Definition all_absent (data : element) : Prop :=
  ∀ (key left top width height domain : string) (T : ctype)
    (pname shaderType precisionType : N) (isWebGL2 : bool)
    (defaultValue : cvalue) (defaultVector : list cvalue),
    GetString data key = None
    ∧ GetStringList data key = []
    ∧ (GetStringListLower data ∅ key).1 = []
    ∧ GetUint32 data key = None
    ∧ GetUint64 data key = None
    ∧ GetInt32 data key = None
    ∧ GetDouble data key = None
    ∧ GetBool data key = None
    ∧ CheckBool data key = false
    ∧ GetRect data left top width height = (None, [])
    ∧ GetInt32Rect data left top width height = (None, [])
    ∧ GetNested data domain key = None
    ∧ GetAttribute T data key isWebGL2 = None
    ∧ GLParam data pname isWebGL2 = None
    ∧ MParamGL T data pname defaultValue isWebGL2 = defaultValue
    ∧ MParamGLVector T data pname defaultVector isWebGL2 = defaultVector
    ∧ MShaderData data shaderType precisionType isWebGL2 = None
    ∧ MVoices data = None.

(** The text of an object whose single field "debug" is [true]. *)
Definition debug_text : string :=
  "{" +:+ String "034"%char "debug" +:+ String "034"%char ":true}".

(** A stand-in for the external parser on the texts the examples use:
    the empty object and [debug_text]; any other text is an error. *)
Definition sample_parse (text : string) : option element :=
  if decide (text = "{}") then Some (JObject [])
  else if decide (text = debug_text) then Some (JObject [("debug", JBool true)])
  else None.

(** An environment whose CAMOU_CONFIG is cut short. *)
Definition broken_env : gmap string string := {[ "CAMOU_CONFIG" := "{oops" ]}.

(** An environment with an empty first shard next to a full CAMOU_CONFIG. *)
Definition empty_shard_env : gmap string string :=
  {[ "CAMOU_CONFIG_1" := ""; "CAMOU_CONFIG" := debug_text ]}.

(** The same shards supplied as one text under CAMOU_CONFIG. *)
Definition empty_single_env : gmap string string :=
  {[ "CAMOU_CONFIG" := join_parts [""] ]}.

(** The decodes [GLParam] tries, one definition each, and the policy
    "first successful decode wins" over a list of them. *)
Definition decode_null (el : element) : option gl_variant :=
  if is_null el then Some gl_nullptr else None.
Definition decode_string (el : element) : option gl_variant :=
  gl_string <$> get_string el.
Definition decode_double (el : element) : option gl_variant :=
  gl_double <$> get_double el.
Definition decode_int64 (el : element) : option gl_variant :=
  gl_int64 <$> get_int64 el.
Definition decode_bool (el : element) : option gl_variant :=
  gl_bool <$> get_bool el.

Fixpoint first_success (decoders : list (element → option gl_variant))
    (el : element) : option gl_variant :=
  match decoders with
  | [] => None
  | decode :: rest =>
      match decode el with
      | Some v => Some v
      | None => first_success rest el
      end
  end.

(** The domain the parameter getters look into. *)
Definition parameters_domain (isWebGL2 : bool) : string :=
  if isWebGL2 then "webGl2:parameters" else "webGl:parameters".

(** Parameters 1..5 hold the string "5", the number 5.0, the integer 5,
    [true] and [null]. *)
Definition variant_doc : element :=
  JObject [("webGl:parameters",
            JObject [("1", JString "5"); ("2", JDouble 5); ("3", JInt64 5);
                     ("4", JBool true); ("5", JNull)])].

(** The color write mask as four booleans, and as four integers. *)
Definition writemask_doc : element :=
  JObject [("webGl:parameters",
            JObject [("3107", JArray [JBool true; JBool false; JBool true; JBool true]);
                     ("3108", JArray [JInt64 1; JInt64 0; JInt64 1; JInt64 1]);
                     ("2930", JBool true)])].

(** The key holds a JSON number that reads as the double [d]: a double,
    or an integer of either encoding converted to double. *)
Definition holds_number (data : element) (key : string) (d : float) : Prop :=
  ∃ obj el, data = JObject obj ∧ at_key obj key = Some el
            ∧ (el = JDouble d
               ∨ ∃ i, (el = JInt64 i ∨ el = JUint64 i) ∧ d = double_of_Z i).

(** The key holds exactly the element [el]. *)
Definition holds (data : element) (key : string) (el : element) : Prop :=
  ∃ obj, data = JObject obj ∧ at_key obj key = Some el.

(** The domain the attribute getter looks into. *)
Definition attributes_domain (isWebGL2 : bool) : string :=
  if isWebGL2 then "webGl2:contextAttributes" else "webGl:contextAttributes".

(** The same boolean under an attribute and under a parameter. *)
Definition alpha_doc : element :=
  JObject [("webGl:contextAttributes", JObject [("alpha", JBool true)]);
           ("webGl:parameters",
            JObject [("1", JBool true); ("3379", JInt64 16384);
                     ("3386", JArray [JInt64 16384; JInt64 16384]);
                     ("33901", JArray [JDouble 1; JInt64 1024]);
                     ("2", JArray [JInt64 1; JString "x"])])].

(** The domain and the composite key [MShaderData] looks up. *)
Definition shader_domain (isWebGL2 : bool) : string :=
  if isWebGL2 then "webGl2:shaderPrecisionFormats"
  else "webGl:shaderPrecisionFormats".

Definition shader_key (shaderType precisionType : N) : string :=
  pretty shaderType +:+ "," +:+ pretty precisionType.

(** [el] is the JSON integer [v], in the signed or the unsigned encoding. *)
Definition is_integer (el : element) (v : Z) : Prop :=
  el = JInt64 v ∨ el = JUint64 v.


(** The precision format of highp floats in a fragment shader. *)
Definition shader_doc : element :=
  JObject [("webGl:shaderPrecisionFormats",
            JObject [("35632,36338",
                      JObject [("rangeMin", JInt64 127); ("rangeMax", JInt64 127);
                               ("precision", JInt64 23)])])].

(** A voice written in the shape [MVoices] reads. *)
Definition encode_voice (v : voice) : element :=
  let '(lang, name, uri, isDefault, isLocal) := v in
  voice_entry lang name uri isDefault isLocal.

(** [c] is one of the letters A..Z. *)
Definition is_upper (c : ascii) : bool :=
  ((65 <=? nat_of_ascii c) && (nat_of_ascii c <=? 90))%nat.

(** Lowercasing as the specification words it, independently of
    [std::tolower]: a letter of A..Z is replaced by the letter of the same
    rank in a..z, and every other character is kept. *)
Definition upper_letters : string := "ABCDEFGHIJKLMNOPQRSTUVWXYZ".
Definition lower_letters : string := "abcdefghijklmnopqrstuvwxyz".

Fixpoint letter_of_same_rank (letters replacements : string) (c : ascii) : ascii :=
  match letters, replacements with
  | String l letters', String r replacements' =>
      if Ascii.eqb c l then r else letter_of_same_rank letters' replacements' c
  | _, _ => c
  end.

Definition ascii_lowercase (c : ascii) : ascii :=
  letter_of_same_rank upper_letters lower_letters c.

Fixpoint string_lowercase (s : string) : string :=
  match s with
  | EmptyString => EmptyString
  | String c rest => String (ascii_lowercase c) (string_lowercase rest)
  end.

(** * Properties *)

(** ** Loops that append *)

(** A loop that appends the decoded elements and passes over the others
    computes [omap] of the decoder. *)
Lemma push_back_loop_omap {A B : Type} (f : A → option B) (l : list A) (acc : list B) :
  fold_left (λ out v, match f v with Some x => out ++ [x] | None => out end) l acc
  = acc ++ omap f l.
Proof.
  revert acc. induction l as [|v l IH]; intros acc; simpl.
  - by rewrite app_nil_r.
  - destruct (f v) as [x|]; rewrite IH; [|done].
    by rewrite <- app_assoc.
Qed.

Lemma GetStringList_loop_omap (arr : list element) :
  GetStringList_loop arr = omap get_string arr.
Proof. unfold GetStringList_loop. by rewrite push_back_loop_omap. Qed.

Lemma MVoices_loop_omap (voicesArr : list element) :
  MVoices_loop voicesArr = omap MVoices_entry voicesArr.
Proof. unfold MVoices_loop. by rewrite push_back_loop_omap. Qed.

(** ** String lists *)

(** C10: when the key holds a JSON array, [GetStringList] returns exactly
    the string elements of the array, in their original order; every other
    element is passed over, none is converted and none makes the call fail. *)
Theorem GetStringList_skips_non_strings (obj : list (string * element))
    (key : string) (arr : list element) :
  at_key obj key = Some (JArray arr) →
  GetStringList (JObject obj) key = omap get_string arr
  ∧ (∀ s, s ∈ GetStringList (JObject obj) key ↔ JString s ∈ arr).
Proof.
  intros Hkey. unfold GetStringList. simpl. rewrite Hkey. simpl.
  rewrite GetStringList_loop_omap. split; [done|].
  intros s. rewrite list_elem_of_omap. split.
  - intros (el & Hel & Hs). destruct el; simplify_eq/=. done.
  - intros Hin. exists (JString s). done.
Qed.

Lemma GetStringList_skips_non_strings_witness :
  at_key [("fonts",
           JArray [JString "Arial"; JInt64 12; JString "Courier";
                   JDouble 1.5; JBool true; JArray [JString "nested"];
                   JString "Times"])] "fonts"
  = Some (JArray [JString "Arial"; JInt64 12; JString "Courier";
                  JDouble 1.5; JBool true; JArray [JString "nested"];
                  JString "Times"])
  ∧ GetStringList mixed_list_doc "fonts" = ["Arial"; "Courier"; "Times"].
Proof.
  split; [reflexivity|].
  exact (proj1 (GetStringList_skips_non_strings
                  [("fonts",
                    JArray [JString "Arial"; JInt64 12; JString "Courier";
                            JDouble 1.5; JBool true; JArray [JString "nested"];
                            JString "Times"])]
                  "fonts"
                  [JString "Arial"; JInt64 12; JString "Courier";
                   JDouble 1.5; JBool true; JArray [JString "nested"];
                   JString "Times"]
                  eq_refl)).
Defined.

(** ** Voices *)




(** ** Unsigned getters *)

(** A cast to an unsigned type keeps a value that is in its range. *)
Lemma wrap_to_unsigned_id (T : ctype) (z : Z) :
  is_unsigned T = true → is_same_bool T = false →
  0 ≤ z ≤ numeric_limits_max T → wrap_to T z = z.
Proof.
  intros Hu Hb Hz. unfold wrap_to, numeric_limits_max in *. rewrite Hb in *.
  destruct T; simplify_eq/=; apply Z.mod_small; lia.
Qed.

(** A cast to a signed type keeps a value that is in its range. *)
Lemma wrap_to_signed_id (T : ctype) (z : Z) :
  is_integral T = true → is_signed T = true →
  numeric_limits_min T ≤ z ≤ numeric_limits_max T → wrap_to T z = z.
Proof.
  intros Hi Hs Hz. unfold wrap_to, numeric_limits_min, numeric_limits_max in *.
  rewrite Hi, Hs in *.
  destruct T; simplify_eq/=; rewrite Z.mod_small; lia.
Qed.

Lemma GetUintImpl_exact (T : ctype) (data : element) (key : string) (v : Z) :
  is_unsigned T = true → is_same_bool T = false →
  numeric_limits_max T ≤ UINT64_MAX →
  wf_at data key →
  GetUintImpl T data key = Some v
  ↔ holds_integer data key v ∧ 0 ≤ v ≤ numeric_limits_max T.
Proof.
  intros Hu Hb Hmax Hwf. unfold GetUintImpl, holds_integer. split.
  - intros H. destruct data as [| | | | | | |obj]; simplify_eq/=.
    destruct (at_key obj key) as [el|] eqn:Hel; simplify_eq/=.
    specialize (Hwf obj el eq_refl Hel).
    destruct el as [| |i|u| | | |]; simplify_eq/=.
    + destruct (Z.ltb_spec i 0); simplify_eq/=.
      * destruct (Z.leb_spec 0 i); [lia|done].
      * destruct (Z.ltb_spec (numeric_limits_max T) i); simplify_eq/=.
        rewrite wrap_to_unsigned_id by (done || lia).
        split; [|lia]. exists obj, (JInt64 i). eauto.
    + apply andb_true_iff in Hwf as [H0%Z.leb_le Hm%Z.leb_le].
      destruct (Z.ltb_spec (numeric_limits_max T) u); simplify_eq/=.
      rewrite wrap_to_unsigned_id by (done || lia).
      split; [|lia]. exists obj, (JUint64 u). eauto.
  - intros [(obj & el & -> & Hel & Hint) Hv]. simpl. rewrite Hel. simpl.
    destruct Hint as [-> | ->]; simpl.
    + destruct (Z.ltb_spec v 0); [lia|]. simpl.
      destruct (Z.ltb_spec (numeric_limits_max T) v); [lia|].
      by rewrite wrap_to_unsigned_id.
    + destruct (Z.ltb_spec (numeric_limits_max T) v); [lia|].
      by rewrite wrap_to_unsigned_id.
Qed.

(** C3: [GetUint32] and [GetUint64] return [v] exactly when the key holds
    a JSON integer [v], in either encoding, with 0 <= v and v no larger than
    the largest value of the target type; in every other case they return
    nothing.  4294967295 is returned by [GetUint32], 4294967296 is not, and a
    JSON string is never read as a number. *)
Theorem GetUint_exact (data : element) (key : string) :
  wf_at data key →
  (∀ v, GetUint32 data key = Some v
        ↔ holds_integer data key v ∧ 0 ≤ v ≤ UINT32_MAX)
  ∧ (∀ v, GetUint64 data key = Some v
          ↔ holds_integer data key v ∧ 0 ≤ v ≤ UINT64_MAX)
  ∧ (∀ obj s, data = JObject obj → at_key obj key = Some (JString s) →
              GetUint32 data key = None ∧ GetUint64 data key = None)
  ∧ GetUint32 (JObject [(key, JInt64 4294967295)]) key = Some 4294967295
  ∧ GetUint32 (JObject [(key, JInt64 4294967296)]) key = None.
Proof.
  intros Hwf. split; [|split; [|split; [|split]]].
  - intros v. by apply (GetUintImpl_exact c_uint32_t).
  - intros v. by apply (GetUintImpl_exact c_uint64_t).
  - intros obj s -> Hel. unfold GetUint32, GetUint64, GetUintImpl. simpl.
    by rewrite Hel.
  - unfold GetUint32, GetUintImpl. simpl. by rewrite decide_True.
  - unfold GetUint32, GetUintImpl. simpl. by rewrite decide_True.
Qed.

Lemma screen_doc_wf (key : string) : wf_at screen_doc key.
Proof.
  intros obj el [= <-] Hel. simpl in Hel.
  repeat case_decide; by simplify_eq.
Qed.

Lemma GetUint_exact_witness :
  wf_at screen_doc "screen.width"
  ∧ GetUint32 screen_doc "screen.width" = Some 4294967295.
Proof.
  split; [apply screen_doc_wf|].
  apply (proj1 (GetUint_exact screen_doc "screen.width"
                  (screen_doc_wf "screen.width"))).
  split; [|done].
  exists [("screen.width", JInt64 4294967295);
          ("screen.height", JUint64 18446744073709551615)],
         (JInt64 4294967295).
  split; [done|]. split; [done|]. by left.
Defined.

(** ** Rectangles *)

(** C4: [GetRect] returns nothing and prints nothing when neither width
    nor height is an unsigned 32-bit value; returns nothing and prints the
    diagnostic when exactly one of them is; and when both are it returns
    left, top, width, height, with 0 for a left or top that is not there. *)
Theorem GetRect_cases (data : element) (left top width height : string) :
  (GetUint32 data width = None → GetUint32 data height = None →
   GetRect data left top width height = (None, []))
  ∧ (∀ w, GetUint32 data width = Some w → GetUint32 data height = None →
          GetRect data left top width height
          = (None, [RectIncomplete width height]))
  ∧ (∀ h, GetUint32 data width = None → GetUint32 data height = Some h →
          GetRect data left top width height
          = (None, [RectIncomplete width height]))
  ∧ (∀ w h, GetUint32 data width = Some w → GetUint32 data height = Some h →
       GetRect data left top width height
       = (Some [default 0 (GetUint32 data left);
                default 0 (GetUint32 data top); w; h], [])
       ∧ (GetUint32 data left = None → GetUint32 data top = None →
          GetRect data left top width height = (Some [0; 0; w; h], []))
       ∧ (∀ l t, GetUint32 data left = Some l → GetUint32 data top = Some t →
                 GetRect data left top width height = (Some [l; t; w; h], []))).
Proof.
  unfold GetRect. split; [|split; [|split]].
  - by intros -> ->.
  - by intros w -> ->.
  - by intros h -> ->.
  - intros w h -> ->. simpl. split; [done|]. split.
    + by intros -> ->.
    + by intros l t -> ->.
Qed.

Lemma GetRect_cases_witness :
  GetRect window_doc "window.screenX" "window.screenY"
          "window.outerWidth" "window.outerHeight"
  = (Some [10; 20; 1280; 720], [])
  ∧ GetRect window_doc "window.innerX" "window.innerY"
            "window.innerWidth" "window.innerHeight"
    = (Some [0; 0; 1264; 633], [])
  ∧ GetRect window_doc "screen.left" "screen.top" "screen.width" "screen.height"
    = (None, [RectIncomplete "screen.width" "screen.height"])
  ∧ GetRect window_doc "a" "b" "c" "d" = (None, []).
Proof.
  split; [|split; [|split]].
  - exact (proj2 (proj2 (proj2 (proj2 (proj2
      (GetRect_cases window_doc "window.screenX" "window.screenY"
         "window.outerWidth" "window.outerHeight"))) 1280 720 eq_refl eq_refl))
      10 20 eq_refl eq_refl).
  - exact (proj1 (proj2 (proj2 (proj2 (proj2
      (GetRect_cases window_doc "window.innerX" "window.innerY"
         "window.innerWidth" "window.innerHeight"))) 1264 633 eq_refl eq_refl))
      eq_refl eq_refl).
  - exact (proj1 (proj2
      (GetRect_cases window_doc "screen.left" "screen.top"
         "screen.width" "screen.height")) 1920 eq_refl eq_refl).
  - exact (proj1 (GetRect_cases window_doc "a" "b" "c" "d") eq_refl eq_refl).
Defined.

(** ** The cache of lowercased lists *)

(** [std::tolower] in the "C" locale is the lowercasing of the letters
    A..Z: checked on each of the 256 characters. *)
Lemma tolower_ascii_lowercase (c : ascii) : tolower c = ascii_lowercase c.
Proof. destruct c as [[] [] [] [] [] [] [] []]; reflexivity. Qed.

Lemma transform_tolower_lowercase (s : string) :
  transform_tolower s = string_lowercase s.
Proof.
  induction s as [|c s IH]; simpl; [done|].
  by rewrite tolower_ascii_lowercase, IH.
Qed.

Lemma transform_tolower_list_lowercase (l : list string) :
  transform_tolower <$> l = string_lowercase <$> l.
Proof.
  induction l as [|s l IH]; csimpl; [done|].
  by rewrite transform_tolower_lowercase, IH.
Qed.

Example transform_tolower_sample :
  transform_tolower "Arial-BOLD_12 [Z@`{" = "arial-bold_12 [z@`{".
Proof. reflexivity. Qed.

Lemma GetStringListLower_result (data : element) (cache : gmap string (list string))
    (key : string) :
  cache_ok data cache →
  (GetStringListLower data cache key).1 = transform_tolower <$> GetStringList data key.
Proof.
  intros Hok. unfold GetStringListLower, emplace.
  destruct (cache !! key) as [cached|] eqn:Hc; simpl; [|done].
  by apply Hok.
Qed.

Lemma GetStringListLower_commits (data : element) (cache : gmap string (list string))
    (key : string) :
  (GetStringListLower data cache key).2 !! key
  = Some (GetStringListLower data cache key).1.
Proof.
  unfold GetStringListLower, emplace.
  destruct (cache !! key) as [cached|] eqn:Hc; simpl; [done|].
  by rewrite lookup_insert_eq.
Qed.

(** A call never changes an entry that is already there. *)
Lemma GetStringListLower_keeps (data : element) (cache : gmap string (list string))
    (key k : string) (v : list string) :
  cache !! k = Some v → (GetStringListLower data cache key).2 !! k = Some v.
Proof.
  intros Hk. unfold GetStringListLower, emplace.
  destruct (cache !! key) as [cached|] eqn:Hc; simpl; [done|].
  rewrite lookup_insert_ne; [done|]. intros ->. congruence.
Qed.

Lemma GetStringListLower_ok (data : element) (cache : gmap string (list string))
    (key : string) :
  cache_ok data cache → cache_ok data (GetStringListLower data cache key).2.
Proof.
  intros Hok k v. unfold GetStringListLower, emplace.
  destruct (cache !! key) as [cached|] eqn:Hc; simpl; [apply Hok|].
  destruct (decide (key = k)) as [->|Hne].
  - rewrite lookup_insert_eq. congruence.
  - rewrite lookup_insert_ne by done. apply Hok.
Qed.

Lemma run_calls_ok (data : element) (keys : list string)
    (cache : gmap string (list string)) :
  cache_ok data cache → cache_ok data (run_calls data cache keys).
Proof.
  revert cache. induction keys as [|key keys IH]; intros cache Hok; simpl; [done|].
  apply IH. by apply GetStringListLower_ok.
Qed.

Lemma run_calls_keeps (data : element) (keys : list string)
    (cache : gmap string (list string)) (k : string) (v : list string) :
  cache !! k = Some v → run_calls data cache keys !! k = Some v.
Proof.
  revert cache. induction keys as [|key keys IH]; intros cache Hk; simpl; [done|].
  apply IH. by apply GetStringListLower_keeps.
Qed.

Lemma cache_ok_empty (data : element) : cache_ok data ∅.
Proof. intros k v. by rewrite lookup_empty. Qed.

(** C8: starting from the empty cache and after any earlier calls,
    [GetStringListLower] returns [GetStringList] of the key with every string
    lowercased: each letter of A..Z replaced by the letter of the same rank in
    a..z and every other character kept ([string_lowercase]), which is what
    the code's [std::transform] with [std::tolower] computes; so the empty
    list when [GetStringList] is empty (key absent or not an array).  The
    result is committed under the key, no later call changes that entry, a
    later call with the same key returns the same list, and a later [emplace]
    of any other value under the key is dropped in favour of the committed
    entry.  On the "fonts" of [mixed_list_doc] the result is arial, courier,
    times. *)
Theorem GetStringListLower_lowercased (data : element) (earlier later : list string)
    (key : string) :
  let cache := run_calls data ∅ earlier in
  let result := (GetStringListLower data cache key).1 in
  let cache' := (GetStringListLower data cache key).2 in
  let cache'' := run_calls data cache' later in
  result = transform_tolower <$> GetStringList data key
  ∧ result = string_lowercase <$> GetStringList data key
  ∧ (GetStringListLower mixed_list_doc ∅ "fonts").1 = ["arial"; "courier"; "times"]
  ∧ cache' !! key = Some result
  ∧ cache'' !! key = Some result
  ∧ (GetStringListLower data cache'' key).1 = result
  ∧ (∀ value, emplace key value cache'' = (cache'', result))
  ∧ (∀ k v, cache !! k = Some v → cache'' !! k = Some v)
  ∧ ((∀ obj, data ≠ JObject obj) → result = [])
  ∧ (∀ obj, data = JObject obj → at_key obj key = None → result = [])
  ∧ (∀ obj el, data = JObject obj → at_key obj key = Some el →
               get_array el = None → result = []).
Proof.
  intros cache result cache' cache''.
  assert (cache_ok data cache) as Hok
    by apply run_calls_ok, cache_ok_empty.
  assert (result = transform_tolower <$> GetStringList data key) as Hres
    by by apply GetStringListLower_result.
  assert (cache' !! key = Some result) as Hcommit
    by apply GetStringListLower_commits.
  assert (cache'' !! key = Some result) as Hlater
    by by apply run_calls_keeps.
  split; [done|].
  split; [by rewrite Hres, transform_tolower_list_lowercase|].
  split; [reflexivity|].
  split; [done|]. split; [done|]. split.
  { unfold GetStringListLower. by rewrite Hlater. }
  split.
  { intros value. unfold emplace. by rewrite Hlater. }
  split.
  { intros k v Hk. by apply run_calls_keeps, GetStringListLower_keeps. }
  rewrite Hres. unfold GetStringList. split; [|split].
  - intros Hno. destruct data; simpl; try done. by destruct (Hno o).
  - intros obj -> Hnone. simpl. by rewrite Hnone.
  - intros obj el -> Hel Harr. simpl. by rewrite Hel, Harr.
Qed.

Lemma GetStringListLower_lowercased_witness :
  (GetStringListLower mixed_list_doc
     (run_calls mixed_list_doc ∅ ["fonts"; "languages"]) "fonts").1
  = ["arial"; "courier"; "times"].
Proof.
  exact (proj1 (proj2 (GetStringListLower_lowercased mixed_list_doc
                         ["fonts"; "languages"] [] "fonts"))).
Defined.

(** ** Reading the shards *)

Lemma shard_name_inj : Inj (=) (=) shard_name.
Proof.
  intros i j H. unfold shard_name in H.
  apply (inj (String.append "CAMOU_CONFIG_")) in H.
  by apply (inj pretty) in H.
Qed.

(** What [get_env_utf8] returns is the value of a variable that is set. *)
Lemma get_env_utf8_Some (win32 : bool) (env : gmap string string)
    (name value : string) :
  get_env_utf8 win32 env name = Some value → env !! name = Some value.
Proof.
  unfold get_env_utf8. destruct win32; [|done].
  destruct (env !! name) as [v|]; [|done]. by destruct (string_empty v).
Qed.

(** It returns nothing for a variable that is not set, and with [_WIN32]
    also for one that is set to the empty text. *)
Lemma get_env_utf8_None (win32 : bool) (env : gmap string string) (name : string) :
  get_env_utf8 win32 env name = None
  ↔ env !! name = None ∨ (win32 = true ∧ env !! name = Some "").
Proof.
  unfold get_env_utf8.
  destruct win32, (env !! name) as [[|c v]|]; simpl; split;
    first [ done | by left | by right
          | intros [Hunset | [Hwin Hempty]]; congruence ].
Qed.

(** When the loop runs out of fuel, every name it asked for was set. *)
Lemma read_parts_None (win32 : bool) (env : gmap string string) (fuel index : nat)
    (parts : list string) :
  read_parts win32 env fuel index parts = None →
  ∀ j, (j < fuel)%nat → is_Some (env !! shard_name (index + j)).
Proof.
  revert index parts. induction fuel as [|fuel IH]; intros index parts H j Hj; [lia|].
  simpl in H. fold (shard_name index) in H.
  destruct (get_env_utf8 win32 env (shard_name index)) as [partial|] eqn:Hi;
    [|done].
  destruct j as [|j].
  - rewrite Nat.add_0_r. apply get_env_utf8_Some in Hi. by rewrite Hi.
  - replace (index + S j)%nat with (S index + j)%nat by lia.
    eapply IH; [done|lia].
Qed.

(** The loop always ends: an environment of [size env] variables cannot
    hold [S (size env)] shards. *)
Lemma read_parts_total (win32 : bool) (env : gmap string string) (index : nat)
    (parts : list string) :
  is_Some (read_parts win32 env (S (size env)) index parts).
Proof.
  destruct (read_parts win32 env (S (size env)) index parts) as [out|] eqn:H;
    [by eexists|].
  exfalso.
  pose proof (read_parts_None _ _ _ _ _ H) as Hall.
  set (names := shard_name <$> seq index (S (size env))).
  assert (NoDup names) as Hnd.
  { apply (NoDup_fmap_2 _). apply NoDup_seq. }
  assert ((list_to_set names : gset string) ⊆ dom env) as Hsub.
  { intros name Hin. apply elem_of_list_to_set in Hin.
    apply list_elem_of_fmap in Hin as (i & -> & Hi).
    apply elem_of_seq in Hi. apply elem_of_dom.
    replace i with (index + (i - index))%nat by lia. apply Hall. lia. }
  apply subseteq_size in Hsub.
  rewrite size_list_to_set in Hsub by done.
  rewrite size_dom in Hsub. unfold names in Hsub.
  rewrite length_fmap, length_seq in Hsub. lia.
Qed.

(** What the loop returns: the values of the shards from [index] up to the
    first name that [get_env_utf8] returns nothing for, appended to [parts]
    in that order. *)
Lemma read_parts_Some (win32 : bool) (env : gmap string string) (fuel index : nat)
    (parts out : list string) :
  read_parts win32 env fuel index parts = Some out →
  ∃ more, out = parts ++ more
    ∧ (∀ i, (i < length more)%nat →
            get_env_utf8 win32 env (shard_name (index + i)) = more !! i)
    ∧ get_env_utf8 win32 env (shard_name (index + length more)) = None.
Proof.
  revert index parts. induction fuel as [|fuel IH]; intros index parts H; [done|].
  simpl in H. fold (shard_name index) in H.
  destruct (get_env_utf8 win32 env (shard_name index)) as [partial|] eqn:Hi.
  - apply IH in H as (more & -> & Hshards & Hend).
    exists (partial :: more). split; [by rewrite <- app_assoc|]. split.
    + intros [|i] Hlt; simpl in *.
      * by rewrite Nat.add_0_r.
      * replace (index + S i)%nat with (S index + i)%nat by lia.
        apply Hshards. lia.
    + simpl. by replace (index + S (length more))%nat
        with (S index + length more)%nat by lia.
  - simplify_eq. exists []. rewrite app_nil_r, Nat.add_0_r. split; [done|].
    split; [|done]. intros i Hlt. simpl in Hlt. lia.
Qed.

Lemma string_app_empty_r (s : string) : s +:+ "" = s.
Proof.
  induction s as [|c s IH]; [done|].
  change (String c (s +:+ "") = String c s). by rewrite IH.
Qed.

Lemma string_app_assoc (s1 s2 s3 : string) : s1 +:+ (s2 +:+ s3) = (s1 +:+ s2) +:+ s3.
Proof.
  induction s1 as [|c s1 IH]; [done|].
  change (String c (s1 +:+ (s2 +:+ s3)) = String c ((s1 +:+ s2) +:+ s3)).
  by rewrite IH.
Qed.

(** The parts are joined with nothing between them. *)
Lemma join_parts_concat (parts : list string) :
  join_parts parts = String.concat "" parts.
Proof.
  unfold join_parts.
  assert (∀ acc, fold_left (λ jsonString p, jsonString +:+ p) parts acc
                 = acc +:+ String.concat "" parts) as Hgen.
  { induction parts as [|p parts IH]; intros acc; simpl.
    - by rewrite string_app_empty_r.
    - rewrite IH. destruct parts as [|q parts]; simpl.
      + by rewrite !string_app_empty_r.
      + rewrite <- string_app_assoc. reflexivity. }
  by rewrite Hgen.
Qed.

Lemma string_empty_true (s : string) : string_empty s = true ↔ s = "".
Proof. by destruct s. Qed.

Lemma string_empty_false (s : string) : string_empty s = false ↔ s ≠ "".
Proof. by destruct s. Qed.

(** ** Documents without the requested data *)

Lemma empty_object_all_absent : all_absent (JObject []).
Proof. intros key left top width height domain T pname st pt v2 dv dvec.
  repeat split. Qed.

Section GetJson_properties.

Variable parse : string → option element.
Variable root_init : element.

(** simdjson parses the text of the empty object to an object without
    fields. *)
Hypothesis parse_empty_object : parse "{}" = Some (JObject []).

Lemma assemble_total (win32 : bool) (env : gmap string string) :
  is_Some (assemble win32 env).
Proof.
  unfold assemble.
  destruct (read_parts_total win32 env 1 []) as [parts ->]. simpl. by eexists.
Qed.

Lemma assemble_unset (win32 : bool) (env : gmap string string) :
  env !! shard_name 1 = None → env !! "CAMOU_CONFIG" = None →
  assemble win32 env = Some "".
Proof.
  intros H1 H0. unfold assemble. simpl. fold (shard_name 1).
  assert (get_env_utf8 win32 env (shard_name 1) = None) as ->
    by (apply get_env_utf8_None; by left).
  simpl.
  assert (get_env_utf8 win32 env "CAMOU_CONFIG" = None) as ->
    by (apply get_env_utf8_None; by left).
  done.
Qed.

(** C5: in either build, the text handed to the parser always exists;
    when it is not empty and the parser rejects it, [GetJson] prints the
    diagnostic and leaves the empty object as the document; when it is empty
    (as it is when neither CAMOU_CONFIG_1 nor CAMOU_CONFIG is set) the
    document is the empty object too, without a diagnostic; and on the empty
    object every getter answers "not there" or returns the caller's default. *)
Theorem GetJson_parse_failure (win32 : bool) (env : gmap string string) :
  ∃ text, assemble win32 env = Some text
    ∧ (text ≠ "" → parse text = None →
       GetJson parse root_init win32 env = Some (JObject [], [InvalidJson]))
    ∧ (text = "" → GetJson parse root_init win32 env = Some (JObject [], []))
    ∧ (env !! shard_name 1 = None → env !! "CAMOU_CONFIG" = None → text = "")
    ∧ all_absent (JObject []).
Proof.
  destruct (assemble_total win32 env) as [text Htext]. exists text.
  split; [done|]. unfold GetJson, parse_into. rewrite Htext. simpl.
  rewrite parse_empty_object. split; [|split; [|split]].
  - intros Hne Hfail. apply string_empty_false in Hne. by rewrite Hne, Hfail.
  - by intros ->.
  - intros H1 H0. rewrite (assemble_unset win32 env H1 H0) in Htext. congruence.
  - apply empty_object_all_absent.
Qed.

End GetJson_properties.

Lemma GetJson_parse_failure_witness :
  sample_parse "{}" = Some (JObject [])
  ∧ GetJson sample_parse JNull false broken_env
    = Some (JObject [], [InvalidJson])
  ∧ GetJson sample_parse JNull true broken_env
    = Some (JObject [], [InvalidJson]).
Proof.
  split; [reflexivity|]. split.
  - destruct (GetJson_parse_failure sample_parse JNull eq_refl false broken_env)
      as (text & Htext & Hfail & _).
    assert (text = "{oops") as -> by (vm_compute in Htext; congruence).
    apply Hfail; [done | reflexivity].
  - destruct (GetJson_parse_failure sample_parse JNull eq_refl true broken_env)
      as (text & Htext & Hfail & _).
    assert (text = "{oops") as -> by (vm_compute in Htext; congruence).
    apply Hfail; [done | reflexivity].
Defined.

(** ** Shards and the single variable *)

(** C2, as stated, fails in both builds: an indexed variable that is set
    but empty does not supersede CAMOU_CONFIG.  The document is the one of
    CAMOU_CONFIG, not the one the joined shards give when supplied as the
    single text.  (Without [_WIN32] the empty shard is read and the joined
    text is empty; with [_WIN32] the empty shard reads as not set.) *)
Lemma empty_shard_does_not_supersede :
  empty_shard_env !! shard_name 1 = Some ""
  ∧ read_parts false empty_shard_env (S (size empty_shard_env)) 1 [] = Some [""]
  ∧ read_parts true empty_shard_env (S (size empty_shard_env)) 1 [] = Some []
  ∧ GetJson sample_parse JNull false empty_shard_env
    = Some (JObject [("debug", JBool true)], [])
  ∧ GetJson sample_parse JNull false empty_single_env = Some (JObject [], [])
  ∧ GetJson sample_parse JNull false empty_shard_env
    ≠ GetJson sample_parse JNull false empty_single_env
  ∧ GetJson sample_parse JNull true empty_shard_env
    = Some (JObject [("debug", JBool true)], [])
  ∧ GetJson sample_parse JNull true empty_single_env = Some (JObject [], [])
  ∧ GetJson sample_parse JNull true empty_shard_env
    ≠ GetJson sample_parse JNull true empty_single_env.
Proof.
  split; [by vm_compute|]. split; [by vm_compute|]. split; [by vm_compute|].
  assert (∀ win32, GetJson sample_parse JNull win32 empty_shard_env
                   = Some (JObject [("debug", JBool true)], [])) as H1
    by (intros []; by vm_compute).
  assert (∀ win32, GetJson sample_parse JNull win32 empty_single_env
                   = Some (JObject [], [])) as H2
    by (intros []; by vm_compute).
  rewrite !H1, !H2. repeat split; done.
Qed.

Section Shards.

Variable parse : string → option element.
Variable root_init : element.

(** Without a first shard the text is CAMOU_CONFIG in full, or empty. *)
Lemma assemble_single (win32 : bool) (env : gmap string string) :
  get_env_utf8 win32 env (shard_name 1) = None →
  assemble win32 env = Some (default "" (env !! "CAMOU_CONFIG")).
Proof.
  intros H1. unfold assemble. simpl. fold (shard_name 1). rewrite H1. simpl.
  unfold get_env_utf8.
  destruct win32; destruct (env !! "CAMOU_CONFIG") as [[|c v]|]; done.
Qed.

(** C2, amended: in either build, the loop reads the shards
    CAMOU_CONFIG_1..N up to the first name that [get_env_utf8] returns
    nothing for (a name that is not set, and with [_WIN32] also a name set to
    the empty text) and joins them in index order with nothing between them.
    When the joined text is not empty it is the text that is parsed, whatever
    CAMOU_CONFIG holds, and the document is the one obtained from an
    environment that has no shard and holds that text in CAMOU_CONFIG.  When
    the joined text is empty (no shard that is read, or only empty shards)
    the text is CAMOU_CONFIG in full, or empty when it is not set. *)
Theorem shards_supersede_when_nonempty (win32 : bool) (env : gmap string string) :
  ∃ parts,
    read_parts win32 env (S (size env)) 1 [] = Some parts
    ∧ (∀ i, (i < length parts)%nat → env !! shard_name (S i) = parts !! i)
    ∧ (env !! shard_name (S (length parts)) = None
       ∨ (win32 = true ∧ env !! shard_name (S (length parts)) = Some ""))
    ∧ (win32 = true → Forall (λ p, p ≠ "") parts)
    ∧ join_parts parts = String.concat "" parts
    ∧ (join_parts parts ≠ "" →
       assemble win32 env = Some (join_parts parts)
       ∧ ∀ single : gmap string string,
           single !! shard_name 1 = None →
           single !! "CAMOU_CONFIG" = Some (join_parts parts) →
           GetJson parse root_init win32 env
           = GetJson parse root_init win32 single)
    ∧ (join_parts parts = "" →
       assemble win32 env = Some (default "" (env !! "CAMOU_CONFIG")))
    ∧ (env !! shard_name 1 = None
       ∨ (win32 = true ∧ env !! shard_name 1 = Some "") →
       parts = []).
Proof.
  destruct (read_parts_total win32 env 1 []) as [parts Hparts]. exists parts.
  destruct (read_parts_Some _ _ _ _ _ _ Hparts) as (more & Hmore & Hshards & Hend).
  simpl in Hmore. subst more.
  assert (∀ i p, parts !! i = Some p →
                 get_env_utf8 win32 env (shard_name (S i)) = Some p) as Hread.
  { intros i p Hp. rewrite <- Hp. apply Hshards. by eapply lookup_lt_Some. }
  split; [done|]. split; [|split; [|split; [|split]]].
  - intros i Hi. destruct (lookup_lt_is_Some_2 parts i Hi) as [p Hp].
    rewrite Hp. by apply (get_env_utf8_Some win32), Hread.
  - by apply get_env_utf8_None.
  - intros ->. apply Forall_lookup. intros i p Hp ->.
    apply Hread in Hp. unfold get_env_utf8 in Hp.
    destruct (env !! shard_name (S i)) as [[|c v]|]; done.
  - apply join_parts_concat.
  - assert (join_parts parts ≠ "" → assemble win32 env = Some (join_parts parts))
      as Hne.
    { intros Hne. unfold assemble. rewrite Hparts. simpl.
      apply string_empty_false in Hne. by rewrite Hne. }
    split; [|split].
    + intros Hjoin. split; [by apply Hne|].
      intros single Hs1 Hs0. unfold GetJson.
      rewrite (Hne Hjoin), (assemble_single win32 single), Hs0; [done|].
      apply get_env_utf8_None. by left.
    + intros Hjoin. unfold assemble. rewrite Hparts. simpl. rewrite Hjoin. simpl.
      unfold get_env_utf8.
      destruct win32; destruct (env !! "CAMOU_CONFIG") as [[|c v]|]; done.
    + intros H1%get_env_utf8_None. destruct parts as [|p parts]; [done|].
      specialize (Hshards 0%nat ltac:(simpl; lia)). simpl in Hshards.
      congruence.
Qed.

End Shards.

(** The text of [debug_text] cut into two shards, next to a CAMOU_CONFIG
    that is not read. *)
Example two_shards_parse (win32 : bool) :
  GetJson sample_parse JNull win32
    {[ "CAMOU_CONFIG_1" := "{" +:+ String "034"%char "deb";
       "CAMOU_CONFIG_2" := "ug" +:+ String "034"%char ":true}";
       "CAMOU_CONFIG_4" := "ignored";
       "CAMOU_CONFIG" := "{}" ]}
  = Some (JObject [("debug", JBool true)], []).
Proof. destruct win32; by vm_compute. Qed.

(** Where the builds part: an empty shard between two others is read
    without [_WIN32] and ends the reading with [_WIN32]. *)
Example empty_middle_shard :
  assemble false {[ "CAMOU_CONFIG_1" := "{"; "CAMOU_CONFIG_2" := "";
                    "CAMOU_CONFIG_3" := "}" ]} = Some "{}"
  ∧ assemble true {[ "CAMOU_CONFIG_1" := "{"; "CAMOU_CONFIG_2" := "";
                     "CAMOU_CONFIG_3" := "}" ]} = Some "{".
Proof. split; by vm_compute. Qed.

(** ** The parameter variant *)

(** C1, as stated, fails on the integer: the value 5 stored as an integer
    comes back as the double 5.0, not as the int64 alternative. *)
Lemma GLParam_integer_is_double :
  GetNested variant_doc "webGl:parameters" "3" = Some (JInt64 5)
  ∧ GLParam variant_doc 3 false = Some (gl_double 5)
  ∧ GLParam variant_doc 3 false ≠ Some (gl_int64 5).
Proof.
  split; [reflexivity|].
  assert (GLParam variant_doc 3 false = Some (gl_double 5)) as H by reflexivity.
  split; [done|]. rewrite H. discriminate.
Qed.

(** C1, amended: [GLParam] tries null, string, double, int64, bool in this
    order and returns the first decode that succeeds.  A string yields the
    string alternative, a double the double alternative, [true] or [false]
    the bool alternative and null the null alternative; an integer of either
    encoding is accepted by the double decode and yields the double
    alternative, so the int64 alternative is never returned. *)
Theorem GLParam_decode_order (data : element) (pname : N) (isWebGL2 : bool) :
  GLParam data pname isWebGL2
  = GetNested data (parameters_domain isWebGL2) (pretty pname)
    ≫= first_success [decode_null; decode_string; decode_double;
                      decode_int64; decode_bool]
  ∧ (∀ el, GetNested data (parameters_domain isWebGL2) (pretty pname) = Some el →
       (el = JNull → GLParam data pname isWebGL2 = Some gl_nullptr)
       ∧ (∀ s, el = JString s → GLParam data pname isWebGL2 = Some (gl_string s))
       ∧ (∀ d, el = JDouble d → GLParam data pname isWebGL2 = Some (gl_double d))
       ∧ (∀ i, el = JInt64 i →
               GLParam data pname isWebGL2 = Some (gl_double (double_of_Z i)))
       ∧ (∀ u, el = JUint64 u →
               GLParam data pname isWebGL2 = Some (gl_double (double_of_Z u)))
       ∧ (∀ b, el = JBool b → GLParam data pname isWebGL2 = Some (gl_bool b))
       ∧ (∀ a, el = JArray a → GLParam data pname isWebGL2 = None)
       ∧ (∀ o, el = JObject o → GLParam data pname isWebGL2 = None))
  ∧ (∀ i, GLParam data pname isWebGL2 ≠ Some (gl_int64 i))
  ∧ GLParam variant_doc 1 false = Some (gl_string "5")
  ∧ GLParam variant_doc 2 false = Some (gl_double 5)
  ∧ GLParam variant_doc 3 false = Some (gl_double 5)
  ∧ GLParam variant_doc 4 false = Some (gl_bool true).
Proof.
  unfold GLParam. fold (parameters_domain isWebGL2).
  destruct (GetNested data (parameters_domain isWebGL2) (pretty pname))
    as [el|] eqn:Hel; simpl.
  - split; [by destruct el|]. split.
    + intros el' [= <-]. repeat split; intros; by subst el.
    + split; [|by repeat split]. intros i. by destruct el.
  - split; [done|]. split; [done|]. split; [done|]. by repeat split.
Qed.

(** ** Parameter vectors *)

(** The loop of [MParamGLVector] decodes every element or none. *)
Lemma MParamGLVector_loop_mapM (T : ctype) (arr : list element) (out : list cvalue) :
  MParamGLVector_loop T arr out = (out ++.) <$> mapM (MParamGLVector_element T) arr.
Proof.
  revert out. induction arr as [|v arr IH]; intros out; simpl.
  - by rewrite app_nil_r.
  - destruct (MParamGLVector_element T v) as [x|]; simpl; [|done].
    rewrite IH. destruct (mapM (MParamGLVector_element T) arr); simpl; [|done].
    by rewrite <- app_assoc.
Qed.

(** All or nothing: the result is the list of all decoded elements when
    the value is an array whose every element is decoded by the loop body,
    and the default in every other case. *)
Lemma MParamGLVector_all_or_nothing (T : ctype) (data : element) (pname : N)
    (defaultValue : list cvalue) (isWebGL2 : bool) :
  MParamGLVector T data pname defaultValue isWebGL2
  = default defaultValue
      (value ← GetNested data (parameters_domain isWebGL2) (pretty pname);
       arr ← get_array value;
       mapM (MParamGLVector_element T) arr).
Proof.
  unfold MParamGLVector. fold (parameters_domain isWebGL2).
  destruct (GetNested data (parameters_domain isWebGL2) (pretty pname))
    as [value|]; simpl; [|done].
  destruct (get_array value) as [arr|]; simpl; [|done].
  rewrite MParamGLVector_loop_mapM.
  by destruct (mapM (MParamGLVector_element T) arr).
Qed.

(** For the fixed-width integer types, double and string, the loop body
    applies the same rule as the scalar getter [MParamGL]. *)
Lemma MParamGLVector_element_scalar (T : ctype) (v : element) (pname : N)
    (defaultValue : cvalue) (isWebGL2 : bool) :
  T ≠ c_bool →
  MParamGL T (JObject [(parameters_domain isWebGL2,
                        JObject [(pretty pname, v)])])
           pname defaultValue isWebGL2
  = default defaultValue (MParamGLVector_element T v).
Proof.
  intros HT. unfold MParamGL. fold (parameters_domain isWebGL2).
  assert (GetNested (JObject [(parameters_domain isWebGL2,
                               JObject [(pretty pname, v)])])
            (parameters_domain isWebGL2) (pretty pname) = Some v) as ->.
  { unfold GetNested. simpl. rewrite decide_True by done. simpl.
    by rewrite decide_True. }
  unfold MParamGLVector_element.
  destruct T; try done; simpl.
  all: try (destruct (get_int64 v) as [i|]; simpl; [|done];
            by destruct ((i <? _) || (_ <? i))).
  all: try (destruct (get_uint64 v) as [u|]; simpl; [|done];
            by destruct (_ <? u)).
  all: try by destruct (get_double v).
  all: try by destruct (get_string v).
Qed.

(** C6 at [T = bool]: [bool] is an unsigned integral type, so the loop
    body takes the unsigned branch and never reaches the one written for
    [bool].  An array of genuine booleans comes back as the default, and an
    array of the integers 0 and 1 comes back as booleans; the scalar getter
    [MParamGL], which tests for [bool] first, reads a boolean as it is. *)
Theorem MParamGLVector_bool_unreachable :
  (∀ b, MParamGLVector_element c_bool (JBool b) = None)
  ∧ MParamGLVector c_bool writemask_doc 3107
      [v_bool false; v_bool false; v_bool false; v_bool false] false
    = [v_bool false; v_bool false; v_bool false; v_bool false]
  ∧ MParamGLVector c_bool writemask_doc 3108 [] false
    = [v_bool true; v_bool false; v_bool true; v_bool true]
  ∧ MParamGL c_bool writemask_doc 2930 (v_bool false) false = v_bool true.
Proof. repeat split. Qed.


(** * Further properties of the getters *)

Arguments wrap_to : simpl never.
Arguments numeric_limits_min : simpl never.
Arguments numeric_limits_max : simpl never.

(** ** Scalar getters *)

(** A cast to int32 keeps a value of the int32 range. *)
Lemma wrap_to_int32_id (i : Z) :
  -2147483648 ≤ i → i ≤ 2147483647 → wrap_to c_int32_t i = i.
Proof.
  intros. apply wrap_to_signed_id; [done..|].
  unfold numeric_limits_min, numeric_limits_max.
  cbn [is_integral is_signed is_same_bool bit_width andb]. lia.
Qed.

(** X1: [GetInt32] returns [v] exactly when the key holds a JSON integer
    [v], of either encoding, within the range of int32; in particular it
    returns nothing for an integer outside that range, for a double and for a
    string. *)
Theorem GetInt32_exact (data : element) (key : string) (v : Z) :
  GetInt32 data key = Some v
  ↔ holds_integer data key v ∧ INT32_MIN ≤ v ≤ INT32_MAX.
Proof.
  unfold GetInt32, holds_integer, INT32_MIN, INT32_MAX. split.
  - intros H. destruct data as [| | | | | | |obj]; simplify_eq/=.
    destruct (at_key obj key) as [el|] eqn:Hel; simplify_eq/=.
    destruct el as [| |i|u| | | |]; simplify_eq/=.
    + destruct (Z.ltb_spec i (-2147483648)); simplify_eq/=.
      destruct (Z.ltb_spec 2147483647 i); simplify_eq/=.
      rewrite wrap_to_int32_id by lia.
      split; [|lia]. exists obj, (JInt64 i). eauto.
    + destruct (Z.ltb_spec INT64_MAX u); simplify_eq/=.
      destruct (Z.ltb_spec u (-2147483648)); simplify_eq/=.
      destruct (Z.ltb_spec 2147483647 u); simplify_eq/=.
      rewrite wrap_to_int32_id by lia.
      split; [|lia]. exists obj, (JUint64 u). eauto.
  - intros [(obj & el & -> & Hel & Hint) Hv]. simpl. rewrite Hel. simpl.
    assert (wrap_to c_int32_t v = v) as Hwrap
      by (apply wrap_to_int32_id; lia).
    destruct Hint as [-> | ->]; simpl.
    + destruct (Z.ltb_spec v (-2147483648)); [lia|].
      destruct (Z.ltb_spec 2147483647 v); [lia|]. simpl. by rewrite Hwrap.
    + destruct (Z.ltb_spec INT64_MAX v); [unfold INT64_MAX in *; lia|]. simpl.
      destruct (Z.ltb_spec v (-2147483648)); [lia|].
      destruct (Z.ltb_spec 2147483647 v); [lia|]. simpl. by rewrite Hwrap.
Qed.

(** X2: [GetDouble] returns [d] exactly when the key holds a JSON number
    that reads as [d]: a double as it is, an integer of either encoding
    converted to double.  Strings, booleans, null, arrays and objects give
    nothing. *)
Theorem GetDouble_numbers (data : element) (key : string) (d : float) :
  GetDouble data key = Some d ↔ holds_number data key d.
Proof.
  unfold GetDouble, holds_number. split.
  - intros H. destruct data as [| | | | | | |obj]; simplify_eq/=.
    destruct (at_key obj key) as [el|] eqn:Hel; simplify_eq/=.
    exists obj, el. split; [done|]. split; [done|].
    destruct el as [| |i|u|d'| | |]; simplify_eq/=.
    + right. exists i. eauto.
    + right. exists u. eauto.
    + by left.
  - intros (obj & el & -> & Hel & Hnum). simpl. rewrite Hel. simpl.
    destruct Hnum as [-> | (i & [-> | ->] & ->)]; done.
Qed.

(** X3: [GetString] and [GetBool] read only a genuine string and a genuine
    boolean, and [CheckBool] is [true] only when the key holds the boolean
    [true]: a missing key, a value of another type and [false] all give
    [false]. *)
Theorem string_and_bool_getters_strict (data : element) (key : string) :
  (∀ s, GetString data key = Some s ↔ holds data key (JString s))
  ∧ (∀ b, GetBool data key = Some b ↔ holds data key (JBool b))
  ∧ (CheckBool data key = true ↔ holds data key (JBool true))
  ∧ (∀ i, holds data key (JInt64 i) →
          GetString data key = None ∧ GetBool data key = None
          ∧ CheckBool data key = false)
  ∧ (∀ s, holds data key (JString s) →
          GetBool data key = None ∧ CheckBool data key = false).
Proof.
  unfold GetString, GetBool, CheckBool, GetBool, holds.
  split; [|split; [|split; [|split]]].
  - intros s. split.
    + intros H. destruct data as [| | | | | | |obj]; simplify_eq/=.
      destruct (at_key obj key) as [[]|] eqn:Hel; simplify_eq/=. by exists obj.
    + intros (obj & -> & Hel). simpl. by rewrite Hel.
  - intros b. split.
    + intros H. destruct data as [| | | | | | |obj]; simplify_eq/=.
      destruct (at_key obj key) as [[]|] eqn:Hel; simplify_eq/=. by exists obj.
    + intros (obj & -> & Hel). simpl. by rewrite Hel.
  - split.
    + intros H. destruct data as [| | | | | | |obj]; simplify_eq/=.
      destruct (at_key obj key) as [[]|] eqn:Hel; simplify_eq/=. by exists obj.
    + intros (obj & -> & Hel). simpl. by rewrite Hel.
  - intros i (obj & -> & Hel). simpl. by rewrite Hel.
  - intros s (obj & -> & Hel). simpl. by rewrite Hel.
Qed.

(** ** Ranges and rectangles *)

(** Whatever the document holds, an unsigned getter returns a value of its
    type. *)
Lemma GetUintImpl_range (T : ctype) (data : element) (key : string) (v : Z) :
  is_unsigned T = true → is_same_bool T = false →
  GetUintImpl T data key = Some v → 0 ≤ v ≤ numeric_limits_max T.
Proof.
  intros Hu Hb H.
  assert (∀ z, 0 ≤ wrap_to T z ≤ numeric_limits_max T) as Hwrap.
  { intros z. unfold wrap_to, numeric_limits_max. rewrite Hb.
    destruct T; simplify_eq/=;
      match goal with |- context [z `mod` ?m] =>
        pose proof (Z.mod_pos_bound z m ltac:(lia)) end; lia. }
  unfold GetUintImpl in H.
  destruct (get_object data) as [obj|]; simplify_eq/=.
  destruct (at_key obj key) as [el|]; simplify_eq/=.
  destruct (get_uint64 el) as [u|].
  - destruct (numeric_limits_max T <? u); simplify_eq. apply Hwrap.
  - destruct (get_int64 el) as [i|]; [|done].
    destruct (0 <=? i); [|done].
    destruct (numeric_limits_max T <? i `mod` 2 ^ 64); simplify_eq. apply Hwrap.
Qed.

(** The entries of a rectangle returned by [GetRect] are unsigned 32-bit
    values. *)
Lemma GetRect_entries_range (data : element) (left top width height : string)
    (rect : list Z) (out : list diagnostic) :
  GetRect data left top width height = (Some rect, out) →
  Forall (λ v, 0 ≤ v ≤ UINT32_MAX) rect.
Proof.
  assert (∀ key, 0 ≤ default 0 (GetUint32 data key) ≤ UINT32_MAX) as Hdef.
  { intros key. destruct (GetUint32 data key) as [v|] eqn:Hv; simpl.
    - by apply (GetUintImpl_range c_uint32_t) in Hv.
    - by compute. }
  unfold GetRect.
  destruct (GetUint32 data width) as [w|] eqn:Hw;
    destruct (GetUint32 data height) as [h|] eqn:Hh; simpl;
    intros; simplify_eq.
  apply (GetUintImpl_range c_uint32_t) in Hw; [|done..].
  apply (GetUintImpl_range c_uint32_t) in Hh; [|done..].
  repeat constructor; first [apply Hdef | apply Hw | apply Hh].
Qed.

(** X4: a rectangle returned by [GetRect] has four entries, each an
    unsigned 32-bit value, and comes without a diagnostic; when nothing is
    returned, at most the one diagnostic naming the width and height keys is
    printed. *)
Theorem GetRect_shape (data : element) (left top width height : string) :
  (∀ rect out, GetRect data left top width height = (Some rect, out) →
     length rect = 4%nat ∧ Forall (λ v, 0 ≤ v ≤ UINT32_MAX) rect ∧ out = [])
  ∧ (∀ out, GetRect data left top width height = (None, out) →
       out = [] ∨ out = [RectIncomplete width height]).
Proof.
  assert (∀ key, 0 ≤ default 0 (GetUint32 data key) ≤ UINT32_MAX) as Hdef.
  { intros key. destruct (GetUint32 data key) as [v|] eqn:Hv; simpl.
    - by apply (GetUintImpl_range c_uint32_t) in Hv.
    - by compute. }
  unfold GetRect.
  destruct (GetUint32 data width) as [w|] eqn:Hw;
    destruct (GetUint32 data height) as [h|] eqn:Hh; simpl; split;
    intros; simplify_eq; eauto.
  split; [done|]. split; [|done].
  apply (GetUintImpl_range c_uint32_t) in Hw; [|done..].
  apply (GetUintImpl_range c_uint32_t) in Hh; [|done..].
  repeat constructor; first [apply Hdef | apply Hw | apply Hh].
Qed.

Lemma GetRect_shape_witness :
  GetRect window_doc "window.screenX" "window.screenY"
          "window.outerWidth" "window.outerHeight"
  = (Some [10; 20; 1280; 720], [])
  ∧ length [10; 20; 1280; 720] = 4%nat.
Proof.
  split; [reflexivity|].
  exact (proj1 (proj1 (GetRect_shape window_doc "window.screenX" "window.screenY"
                         "window.outerWidth" "window.outerHeight")
                  [10; 20; 1280; 720] [] eq_refl)).
Defined.

(** On values that are not negative, the loop of [GetInt32Rect] returns
    them unchanged when none exceeds the largest int32, and nothing
    otherwise. *)
Lemma GetInt32Rect_loop_spec (values : list Z) :
  Forall (λ v, 0 ≤ v) values →
  ∀ rect, GetInt32Rect_loop values = Some rect
          ↔ rect = values ∧ Forall (λ v, v ≤ INT32_MAX) values.
Proof.
  induction 1 as [|v values Hv _ IH]; intros rect; simpl.
  - split; [by intros [= <-]|by intros [-> _]].
  - destruct (Z.ltb_spec INT32_MAX v) as [Hbig|Hfit].
    + split; [done|]. intros [_ Hall]. inversion Hall; lia.
    + rewrite wrap_to_int32_id by (unfold INT32_MAX in *; lia).
      destruct (GetInt32Rect_loop values) as [rest|] eqn:Hrest; simpl.
      * destruct (proj1 (IH rest) eq_refl) as [-> Hall]. split.
        -- intros [= <-]. split; [done|]. by constructor.
        -- by intros [-> _].
      * split; [done|]. intros [-> Hall]. inversion Hall; subst.
        assert (@None (list Z) = Some values) by (by apply IH). done.
Qed.

(** X5: [GetInt32Rect] returns the rectangle of [GetRect] unchanged exactly
    when every entry is at most the largest int32, nothing when [GetRect]
    returns nothing or an entry is larger, and in every case prints what
    [GetRect] prints. *)
Theorem GetInt32Rect_exact (data : element) (left top width height : string) :
  (∀ rect out,
     GetInt32Rect data left top width height = (Some rect, out)
     ↔ GetRect data left top width height = (Some rect, out)
       ∧ Forall (λ v, v ≤ INT32_MAX) rect)
  ∧ (GetInt32Rect data left top width height).2
    = (GetRect data left top width height).2.
Proof.
  unfold GetInt32Rect.
  destruct (GetRect data left top width height) as [[values|] diags] eqn:Hrect;
    simpl; [|split; [|done]; intros; split; [done|by intros [? _]]].
  split; [|done]. intros rect out.
  pose proof (GetRect_entries_range _ _ _ _ _ _ _ Hrect) as Hrange.
  assert (Forall (λ v, 0 ≤ v) values) as Hpos
    by (eapply Forall_impl; [exact Hrange|]; simpl; lia).
  pose proof (GetInt32Rect_loop_spec values Hpos rect) as Hloop. split.
  - intros [= Hl <-]. apply Hloop in Hl as [-> Hall]. done.
  - intros [[= -> ->] Hall]. f_equal. by apply Hloop.
Qed.

(** ** Getters that agree *)

(** X6: when [GetUint32] returns [v] for a key, [GetUint64] returns the
    same [v], [GetDouble] returns [v] converted to double, and [GetInt32]
    returns [v] unless [v] exceeds the largest int32, in which case it returns
    nothing. *)
Theorem numeric_getters_agree (data : element) (key : string) (v : Z) :
  wf_at data key →
  GetUint32 data key = Some v →
  GetUint64 data key = Some v
  ∧ GetDouble data key = Some (double_of_Z v)
  ∧ GetInt32 data key = (if INT32_MAX <? v then None else Some v).
Proof.
  intros Hwf H32.
  apply (GetUintImpl_exact c_uint32_t) in H32
    as [(obj & el & -> & Hel & Hint) Hv]; [|done..].
  change (numeric_limits_max c_uint32_t) with 4294967295 in Hv.
  split; [|split].
  - apply (GetUintImpl_exact c_uint64_t); [done..|].
    split; [by exists obj, el|].
    change (numeric_limits_max c_uint64_t) with 18446744073709551615. lia.
  - unfold GetDouble. simpl. rewrite Hel. simpl. by destruct Hint as [-> | ->].
  - unfold GetInt32, INT32_MIN, INT32_MAX. simpl. rewrite Hel. simpl.
    assert (get_int64 el = Some v) as ->.
    { destruct Hint as [-> | ->]; simpl; [done|].
      destruct (Z.ltb_spec INT64_MAX v); [unfold INT64_MAX in *; lia|done]. }
    simpl. destruct (Z.ltb_spec v (-2147483648)); [lia|]. simpl.
    destruct (Z.ltb_spec 2147483647 v); [done|].
    by rewrite wrap_to_int32_id by lia.
Qed.

Lemma numeric_getters_agree_witness :
  GetUint64 window_doc "window.outerWidth" = Some 1280
  ∧ GetDouble window_doc "window.outerWidth" = Some (double_of_Z 1280)
  ∧ GetInt32 window_doc "window.outerWidth"
    = (if INT32_MAX <? 1280 then None else Some 1280).
Proof.
  apply (numeric_getters_agree window_doc "window.outerWidth" 1280).
  - intros obj el [= <-] Hel. simpl in Hel.
    repeat case_decide; by simplify_eq.
  - reflexivity.
Defined.

(** ** The WebGL templates *)

(** [MParamGL] is the rule of [GetAttribute] applied to the parameter, with
    the default in place of "nothing". *)
Lemma MParamGL_GetAttribute_same_rule_aux (T : ctype) (data : element)
    (pname : N) (defaultValue : cvalue) (isWebGL2 : bool) :
  MParamGL T data pname defaultValue isWebGL2
  = default defaultValue
      (value ← GetNested data (parameters_domain isWebGL2) (pretty pname);
       if is_same_bool T then b ← get_bool value; Some (v_bool b)
       else if is_integral T && is_signed T then
         i ← get_int64 value;
         if (i <? numeric_limits_min T) || (numeric_limits_max T <? i) then None
         else Some (static_cast T i)
       else if is_integral T && is_unsigned T then
         u ← get_uint64 value;
         if numeric_limits_max T <? u then None
         else Some (static_cast T u)
       else if is_floating_point T then
         d ← get_double value; Some (v_double d)
       else if is_same_string T then
         sv ← get_string value; Some (v_string sv)
       else None).
Proof.
  unfold MParamGL. fold (parameters_domain isWebGL2).
  destruct (GetNested data (parameters_domain isWebGL2) (pretty pname))
    as [value|]; [|done].
  cbn [mbind option_bind].
  destruct (is_same_bool T); [by destruct (get_bool value)|].
  destruct (is_integral T && is_signed T).
  { destruct (get_int64 value) as [i|]; [|done]. cbn [mbind option_bind].
    by destruct ((i <? numeric_limits_min T) || (numeric_limits_max T <? i)). }
  destruct (is_integral T && is_unsigned T).
  { destruct (get_uint64 value) as [u|]; [|done]. cbn [mbind option_bind].
    by destruct (numeric_limits_max T <? u). }
  destruct (is_floating_point T); [by destruct (get_double value)|].
  destruct (is_same_string T); [by destruct (get_string value)|].
  done.
Qed.

(** X7: [MParamGL] applies to a parameter the rule that [GetAttribute]
    applies to an attribute: when the two lookups find the same value (or both
    find nothing), [MParamGL] returns what [GetAttribute] returns, and the
    default where [GetAttribute] returns nothing. *)
Theorem MParamGL_GetAttribute_same_rule (T : ctype) (data : element)
    (attrib : string) (pname : N) (defaultValue : cvalue) (isWebGL2 : bool) :
  GetNested data (attributes_domain isWebGL2) attrib
  = GetNested data (parameters_domain isWebGL2) (pretty pname) →
  MParamGL T data pname defaultValue isWebGL2
  = default defaultValue (GetAttribute T data attrib isWebGL2).
Proof.
  intros Hsame. unfold MParamGL, GetAttribute.
  fold (parameters_domain isWebGL2). fold (attributes_domain isWebGL2).
  rewrite Hsame.
  destruct (GetNested data (parameters_domain isWebGL2) (pretty pname))
    as [value|]; [|done].
  cbn [mbind option_bind].
  destruct (is_same_bool T); [by destruct (get_bool value)|].
  destruct (is_integral T && is_signed T).
  { destruct (get_int64 value) as [i|]; [|done]. cbn [mbind option_bind].
    by destruct ((i <? numeric_limits_min T) || (numeric_limits_max T <? i)). }
  destruct (is_integral T && is_unsigned T).
  { destruct (get_uint64 value) as [u|]; [|done]. cbn [mbind option_bind].
    by destruct (numeric_limits_max T <? u). }
  destruct (is_floating_point T); [by destruct (get_double value)|].
  destruct (is_same_string T); [by destruct (get_string value)|].
  done.
Qed.

Lemma MParamGL_GetAttribute_same_rule_witness :
  GetNested alpha_doc (attributes_domain false) "alpha"
  = GetNested alpha_doc (parameters_domain false) (pretty 1%N)
  ∧ MParamGL c_bool alpha_doc 1 (v_bool false) false = v_bool true
  ∧ MParamGL c_int32_t alpha_doc 1 (v_int 7) false = v_int 7.
Proof.
  split; [reflexivity|]. split.
  - exact (MParamGL_GetAttribute_same_rule c_bool alpha_doc "alpha" 1
             (v_bool false) false eq_refl).
  - exact (MParamGL_GetAttribute_same_rule c_int32_t alpha_doc "alpha" 1
             (v_int 7) false eq_refl).
Defined.

(** X9: for a fixed-width integer type [T], [MParamGL] returns the integer
    stored under the parameter when it lies within the limits of [T], and the
    default when it lies outside them (a negative value for an unsigned type
    included) or when the value is not an integer: a double, even one without
    a fraction, a string and a boolean are not converted. *)
Theorem MParamGL_integer (T : ctype) (data : element) (pname : N)
    (defaultValue : cvalue) (isWebGL2 : bool) (el : element) :
  is_integral T = true → is_same_bool T = false →
  GetNested data (parameters_domain isWebGL2) (pretty pname) = Some el →
  wf_scalar el = true →
  MParamGL T data pname defaultValue isWebGL2
  = match el with
    | JInt64 i | JUint64 i =>
        if (numeric_limits_min T <=? i) && (i <=? numeric_limits_max T)
        then v_int i else defaultValue
    | _ => defaultValue
    end.
Proof.
  intros Hi Hb Hel Hwf.
  rewrite MParamGL_GetAttribute_same_rule_aux, Hel. cbn [mbind option_bind].
  rewrite Hb, Hi. cbn [andb].
  assert (numeric_limits_max T ≤ UINT64_MAX ∧ INT64_MIN ≤ numeric_limits_min T
          ∧ numeric_limits_min T ≤ 0 ≤ numeric_limits_max T) as Hlim.
  { unfold numeric_limits_min, numeric_limits_max, UINT64_MAX, INT64_MIN.
    destruct T; simplify_eq/=; lia. }
  assert (is_signed T = false → is_unsigned T = true ∧ numeric_limits_min T = 0)
    as Huns.
  { unfold numeric_limits_min. destruct T; simplify_eq/=; done. }
  assert (is_signed T = true → numeric_limits_max T ≤ INT64_MAX) as Hsgn.
  { unfold numeric_limits_max, INT64_MAX. destruct T; simplify_eq/=; lia. }
  unfold static_cast. rewrite Hb.
  destruct (is_signed T) eqn:Hs.
  - specialize (Hsgn eq_refl).
    destruct el as [| |i|u| | | |]; try done; simpl.
    + destruct (Z.ltb_spec i (numeric_limits_min T));
        destruct (Z.ltb_spec (numeric_limits_max T) i);
        destruct (Z.leb_spec (numeric_limits_min T) i);
        destruct (Z.leb_spec i (numeric_limits_max T)); simpl; try lia; try done.
      by rewrite wrap_to_signed_id.
    + apply andb_true_iff in Hwf as [H0%Z.leb_le _].
      destruct (Z.ltb_spec INT64_MAX u); simpl.
      * destruct (Z.leb_spec u (numeric_limits_max T)); [lia|].
        by rewrite andb_false_r.
      * destruct (Z.ltb_spec u (numeric_limits_min T));
          destruct (Z.ltb_spec (numeric_limits_max T) u);
          destruct (Z.leb_spec (numeric_limits_min T) u);
          destruct (Z.leb_spec u (numeric_limits_max T)); simpl; try lia; try done.
        by rewrite wrap_to_signed_id.
  - destruct (Huns eq_refl) as [-> Hmin]. rewrite Hmin in *.
    destruct el as [| |i|u| | | |]; try done; simpl.
    + destruct (Z.ltb_spec i 0); simpl.
      * destruct (Z.leb_spec 0 i); [lia|done].
      * destruct (Z.ltb_spec (numeric_limits_max T) i);
          destruct (Z.leb_spec 0 i);
          destruct (Z.leb_spec i (numeric_limits_max T)); simpl; try lia; try done.
        rewrite wrap_to_unsigned_id; [done| |done|lia].
        by destruct T.
    + apply andb_true_iff in Hwf as [H0%Z.leb_le _].
      destruct (Z.ltb_spec (numeric_limits_max T) u);
        destruct (Z.leb_spec 0 u);
        destruct (Z.leb_spec u (numeric_limits_max T)); simpl; try lia; try done.
      rewrite wrap_to_unsigned_id; [done| |done|lia].
      by destruct T.
Qed.

Lemma MParamGL_integer_witness :
  GetNested alpha_doc (parameters_domain false) (pretty 3379%N)
  = Some (JInt64 16384)
  ∧ MParamGL c_int32_t alpha_doc 3379 (v_int 0) false = v_int 16384
  ∧ MParamGL c_uint8_t alpha_doc 3379 (v_int 0) false = v_int 0.
Proof.
  split; [reflexivity|]. split.
  - exact (MParamGL_integer c_int32_t alpha_doc 3379 (v_int 0) false
             (JInt64 16384) eq_refl eq_refl eq_refl eq_refl).
  - exact (MParamGL_integer c_uint8_t alpha_doc 3379 (v_int 0) false
             (JInt64 16384) eq_refl eq_refl eq_refl eq_refl).
Defined.

(** X10: when the parameter holds an array, [MParamGLVector] returns, for
    each element in order, the value the loop body decodes from it, provided
    every element is decoded; one element that is not decoded makes the whole
    result the default; and the empty array gives the empty list, not the
    default. *)
Theorem MParamGLVector_elementwise (T : ctype) (data : element) (pname : N)
    (defaultValue : list cvalue) (isWebGL2 : bool) (arr : list element) :
  GetNested data (parameters_domain isWebGL2) (pretty pname) = Some (JArray arr) →
  (∀ out, Forall2 (λ el x, MParamGLVector_element T el = Some x) arr out →
          MParamGLVector T data pname defaultValue isWebGL2 = out)
  ∧ (∀ el, el ∈ arr → MParamGLVector_element T el = None →
           MParamGLVector T data pname defaultValue isWebGL2 = defaultValue)
  ∧ (arr = [] → MParamGLVector T data pname defaultValue isWebGL2 = [])
  ∧ (MParamGLVector T data pname defaultValue isWebGL2 = defaultValue
     ∨ length (MParamGLVector T data pname defaultValue isWebGL2) = length arr).
Proof.
  intros Hel. rewrite MParamGLVector_all_or_nothing, Hel. simpl.
  split; [|split; [|split]].
  - intros out Hout. apply mapM_Some in Hout. by rewrite Hout.
  - intros el Hin Hnone.
    assert (mapM (MParamGLVector_element T) arr = None) as ->; [|done].
    apply mapM_None, Exists_exists. by exists el.
  - by intros ->.
  - destruct (mapM (MParamGLVector_element T) arr) as [out|] eqn:Hout;
      [|by left].
    right. simpl. symmetry. by eapply length_mapM.
Qed.

Lemma MParamGLVector_elementwise_witness :
  GetNested alpha_doc (parameters_domain false) (pretty 3386%N)
  = Some (JArray [JInt64 16384; JInt64 16384])
  ∧ MParamGLVector c_int32_t alpha_doc 3386 [] false = [v_int 16384; v_int 16384]
  ∧ MParamGLVector c_int32_t alpha_doc 2 [v_int 0; v_int 0] false
    = [v_int 0; v_int 0].
Proof.
  split; [reflexivity|]. split.
  - apply (proj1 (MParamGLVector_elementwise c_int32_t alpha_doc 3386 [] false
                    [JInt64 16384; JInt64 16384] eq_refl)).
    repeat constructor.
  - apply (proj1 (proj2 (MParamGLVector_elementwise c_int32_t alpha_doc 2
                           [v_int 0; v_int 0] false
                           [JInt64 1; JString "x"] eq_refl))
             (JString "x")).
    + set_solver.
    + reflexivity.
Defined.

(** ** Shader precision formats *)

Lemma get_int64_int32 (el : element) (v : Z) :
  INT32_MIN ≤ v ≤ INT32_MAX → get_int64 el = Some v ↔ is_integer el v.
Proof.
  unfold INT32_MIN, INT32_MAX, is_integer. intros Hv. split.
  - destruct el as [| |i|u| | | |]; simpl; try done.
    + intros [= ->]. by left.
    + destruct (INT64_MAX <? u); [done|]. intros [= ->]. by right.
  - intros [-> | ->]; simpl; [done|].
    destruct (Z.ltb_spec INT64_MAX v); [unfold INT64_MAX in *; lia|done].
Qed.

(** X11: [MShaderData] returns the three numbers exactly when the entry
    under "<shaderType>,<precisionType>" is an object whose fields rangeMin,
    rangeMax and precision are JSON integers within int32; a missing field, a
    field of another type or one integer outside int32 gives nothing. *)
Theorem MShaderData_exact (data : element) (shaderType precisionType : N)
    (isWebGL2 : bool) (result : list Z) :
  MShaderData data shaderType precisionType isWebGL2 = Some result
  ↔ ∃ obj eMin eMax ePrec rmin rmax prec,
      GetNested data (shader_domain isWebGL2) (shader_key shaderType precisionType)
      = Some (JObject obj)
      ∧ at_key obj "rangeMin" = Some eMin
      ∧ at_key obj "rangeMax" = Some eMax
      ∧ at_key obj "precision" = Some ePrec
      ∧ is_integer eMin rmin ∧ is_integer eMax rmax ∧ is_integer ePrec prec
      ∧ INT32_MIN ≤ rmin ≤ INT32_MAX
      ∧ INT32_MIN ≤ rmax ≤ INT32_MAX
      ∧ INT32_MIN ≤ prec ≤ INT32_MAX
      ∧ result = [rmin; rmax; prec].
Proof.
  unfold MShaderData.
  fold (shader_domain isWebGL2). fold (shader_key shaderType precisionType).
  cbv zeta. split.
  - intros H.
    destruct (GetNested data _ _) as [value|] eqn:Hvalue; [|done].
    cbn [mbind option_bind] in H.
    destruct value as [| | | | | | |obj]; try done.
    cbn [mbind option_bind get_object] in H.
    destruct (at_key obj "rangeMin") as [eMin|] eqn:HeMin; [|done].
    cbn [mbind option_bind] in H.
    destruct (at_key obj "rangeMax") as [eMax|] eqn:HeMax; [|done].
    cbn [mbind option_bind] in H.
    destruct (at_key obj "precision") as [ePrec|] eqn:HePrec; [|done].
    cbn [mbind option_bind] in H.
    destruct (get_int64 eMin) as [rmin|] eqn:Hmin; [|done].
    cbn [mbind option_bind] in H.
    destruct (get_int64 eMax) as [rmax|] eqn:Hmax; [|done].
    cbn [mbind option_bind] in H.
    destruct (get_int64 ePrec) as [prec|] eqn:Hprec; [|done].
    cbn [mbind option_bind] in H.
    destruct (Z.ltb_spec rmin INT32_MIN); [done|].
    destruct (Z.ltb_spec INT32_MAX rmin); [done|].
    destruct (Z.ltb_spec rmax INT32_MIN); [done|].
    destruct (Z.ltb_spec INT32_MAX rmax); [done|].
    destruct (Z.ltb_spec prec INT32_MIN); [done|].
    destruct (Z.ltb_spec INT32_MAX prec); [done|].
    cbn [orb] in H.
    unfold INT32_MIN, INT32_MAX in *.
    rewrite (wrap_to_int32_id rmin), (wrap_to_int32_id rmax),
      (wrap_to_int32_id prec) in H by lia.
    injection H as <-.
    exists obj, eMin, eMax, ePrec, rmin, rmax, prec.
    rewrite <- !get_int64_int32 by (unfold INT32_MIN, INT32_MAX; lia).
    repeat split; done || lia.
  - intros (obj & eMin & eMax & ePrec & rmin & rmax & prec & -> & HeMin & HeMax
            & HePrec & Hmin & Hmax & Hprec & Rmin & Rmax & Rprec & ->).
    apply get_int64_int32 in Hmin, Hmax, Hprec; [|done..].
    cbn [mbind option_bind get_object]. rewrite HeMin, HeMax, HePrec.
    cbn [mbind option_bind]. rewrite Hmin, Hmax, Hprec.
    cbn [mbind option_bind].
    destruct (Z.ltb_spec rmin INT32_MIN); [lia|].
    destruct (Z.ltb_spec INT32_MAX rmin); [lia|].
    destruct (Z.ltb_spec rmax INT32_MIN); [lia|].
    destruct (Z.ltb_spec INT32_MAX rmax); [lia|].
    destruct (Z.ltb_spec prec INT32_MIN); [lia|].
    destruct (Z.ltb_spec INT32_MAX prec); [lia|].
    cbn [orb].
    unfold INT32_MIN, INT32_MAX in *.
    by rewrite (wrap_to_int32_id rmin), (wrap_to_int32_id rmax),
      (wrap_to_int32_id prec) by lia.
Qed.









Example MShaderData_sample :
  MShaderData shader_doc 35632 36338 false = Some [127; 127; 23].
Proof. reflexivity. Qed.

(** ** More on voices *)

Lemma MVoices_entry_encode (v : voice) : MVoices_entry (encode_voice v) = Some v.
Proof. by destruct v as [[[[lang name] uri] isDefault] isLocal]. Qed.

(** X13: a list of voices written in the shape of the "voices" array, one
    object per voice with the fields lang, name, voiceUri, isDefault and
    isLocalService, is read back by [MVoices] unchanged and in order. *)
Theorem MVoices_round_trip (rootObj : list (string * element)) (voices : list voice) :
  at_key rootObj "voices" = Some (JArray (encode_voice <$> voices)) →
  MVoices (JObject rootObj) = Some voices.
Proof.
  intros Hkey. unfold MVoices. simpl. rewrite Hkey. simpl.
  rewrite MVoices_loop_omap. f_equal. clear Hkey.
  induction voices as [|v voices IH]; csimpl; [done|].
  by rewrite MVoices_entry_encode, IH.
Qed.

Lemma MVoices_round_trip_witness :
  at_key [("debug", JBool true);
          ("voices", JArray (encode_voice <$>
             [("en-US", "Samantha", "urn:samantha", true, true);
              ("fr-FR", "Thomas", "urn:thomas", false, false)]))] "voices"
  = Some (JArray (encode_voice <$>
             [("en-US", "Samantha", "urn:samantha", true, true);
              ("fr-FR", "Thomas", "urn:thomas", false, false)]))
  ∧ MVoices (JObject
       [("debug", JBool true);
        ("voices", JArray (encode_voice <$>
           [("en-US", "Samantha", "urn:samantha", true, true);
            ("fr-FR", "Thomas", "urn:thomas", false, false)]))])
    = Some [("en-US", "Samantha", "urn:samantha", true, true);
            ("fr-FR", "Thomas", "urn:thomas", false, false)].
Proof.
  split; [reflexivity|].
  exact (MVoices_round_trip
           [("debug", JBool true);
            ("voices", JArray (encode_voice <$>
               [("en-US", "Samantha", "urn:samantha", true, true);
                ("fr-FR", "Thomas", "urn:thomas", false, false)]))]
           [("en-US", "Samantha", "urn:samantha", true, true);
            ("fr-FR", "Thomas", "urn:thomas", false, false)]
           eq_refl).
Defined.

Lemma omap_length_le {A B : Type} (f : A → option B) (l : list A) :
  (length (omap f l) ≤ length l)%nat
  ∧ (length (omap f l) = length l ↔ Forall (λ x, is_Some (f x)) l).
Proof.
  induction l as [|x l [IHle IHeq]]; csimpl.
  - split; [done|]. split; [by constructor|done].
  - destruct (f x) as [y|] eqn:Hx; csimpl.
    + split; [lia|]. split.
      * intros Hlen. constructor; [by rewrite Hx|]. apply IHeq. lia.
      * intros Hall. inversion Hall; subst. f_equal. by apply IHeq.
    + split; [lia|]. split; [lia|].
      intros Hall. inversion Hall as [|?? [y Hy]]; subst. congruence.
Qed.

(** X14: [MVoices] returns nothing exactly when the document has no array
    under "voices" (an empty array gives the empty list, not nothing); the
    list it returns is never longer than the array, and it is as long as the
    array exactly when every entry is well formed. *)
Theorem MVoices_count (data : element) :
  (MVoices data = None
   ↔ ∀ rootObj voicesArr,
       data = JObject rootObj → at_key rootObj "voices" ≠ Some (JArray voicesArr))
  ∧ (∀ voices, MVoices data = Some voices →
       ∃ rootObj voicesArr,
         data = JObject rootObj
         ∧ at_key rootObj "voices" = Some (JArray voicesArr)
         ∧ (length voices ≤ length voicesArr)%nat
         ∧ (length voices = length voicesArr
            ↔ Forall (λ voiceEl, is_Some (MVoices_entry voiceEl)) voicesArr)).
Proof.
  unfold MVoices. split.
  - split.
    + intros H rootObj voicesArr -> Hkey. simpl in H. by rewrite Hkey in H.
    + intros H. destruct data as [| | | | | | |rootObj]; try done. simpl.
      destruct (at_key rootObj "voices") as [[| | | | | |voicesArr|]|] eqn:Hkey;
        try done.
      by destruct (H rootObj voicesArr).
  - intros voices H. destruct data as [| | | | | | |rootObj]; try done.
    simpl in H.
    destruct (at_key rootObj "voices") as [[| | | | | |voicesArr|]|] eqn:Hkey;
      try done.
    simpl in H. injection H as <-. rewrite MVoices_loop_omap.
    exists rootObj, voicesArr. split; [done|]. split; [done|].
    apply omap_length_le.
Qed.

(** ** More on reading the configuration *)

Section Outcomes.

Variable parse : string → option element.
Variable root_init : element.

(** X15: in either build, [GetJson] always comes back with a document,
    whatever the environment holds.  It prints the diagnostic exactly when the text is not
    empty and the parser rejects it, and never more than once; a text the
    parser accepts becomes the document as it is; an empty text is not handed
    to the parser: the text of the empty object is parsed in its place. *)
Theorem GetJson_outcomes (win32 : bool) (env : gmap string string) :
  ∃ text data diags,
    assemble win32 env = Some text
    ∧ GetJson parse root_init win32 env = Some (data, diags)
    ∧ (diags = [] ∨ diags = [InvalidJson])
    ∧ (diags = [InvalidJson] ↔ text ≠ "" ∧ parse text = None)
    ∧ (∀ r, text ≠ "" → parse text = Some r → data = r)
    ∧ (text = "" ∨ parse text = None → data = parse_into parse "{}" root_init).
Proof.
  destruct (assemble_total win32 env) as [text Htext].
  unfold GetJson. rewrite Htext. simpl.
  destruct (string_empty text) eqn:Hempty.
  - apply string_empty_true in Hempty as ->.
    exists "", (parse_into parse "{}" root_init), [].
    repeat split; try done; eauto. by intros [? _].
  - apply string_empty_false in Hempty.
    destruct (parse text) as [r|] eqn:Hparse.
    + exists text, r, []. repeat split; try done; eauto.
      * intros [_ ?]. congruence.
      * congruence.
      * intros [->|?]; [done|congruence].
    + exists text, (parse_into parse "{}" root_init), [InvalidJson].
      repeat split; try done; eauto. intros r _ ?. congruence.
Qed.

End Outcomes.

(** The parts are determined by what is read up to the first gap. *)
Lemma shards_determined (look look' : nat → option string)
    (parts parts' : list string) (n : nat) :
  (1 ≤ n)%nat → look n = None →
  (∀ i, (1 ≤ i ≤ n)%nat → look' i = look i) →
  (∀ i, (i < length parts)%nat → look (S i) = parts !! i) →
  look (S (length parts)) = None →
  (∀ i, (i < length parts')%nat → look' (S i) = parts' !! i) →
  look' (S (length parts')) = None →
  parts' = parts.
Proof.
  intros Hn Hgap Hsame Hparts Hend Hparts' Hend'.
  assert (length parts < n)%nat as Hlen.
  { destruct (decide (length parts < n)%nat) as [|Hge]; [done|].
    specialize (Hparts (n - 1)%nat ltac:(lia)).
    replace (S (n - 1)) with n in Hparts by lia.
    rewrite Hgap in Hparts. symmetry in Hparts.
    apply lookup_ge_None in Hparts. lia. }
  assert (length parts' = length parts) as Hlen'.
  { destruct (Nat.lt_trichotomy (length parts') (length parts)) as [Hlt|[?|Hgt]];
      [|done|].
    - rewrite Hsame, Hparts in Hend' by lia.
      apply lookup_ge_None in Hend'. lia.
    - specialize (Hparts' (length parts) Hgt).
      rewrite Hsame, Hend in Hparts' by lia. symmetry in Hparts'.
      apply lookup_ge_None in Hparts'. lia. }
  apply list_eq. intros i.
  destruct (decide (i < length parts)%nat) as [Hi|Hi].
  - rewrite <- Hparts, <- Hparts' by lia. apply Hsame. lia.
  - rewrite !lookup_ge_None_2 by lia. done.
Qed.

(** X16: in either build, reading stops at the first gap.  When
    CAMOU_CONFIG_n is not set, nothing stored under a larger index is read:
    two environments that agree on CAMOU_CONFIG_1..CAMOU_CONFIG_n and on
    CAMOU_CONFIG give the same text, hence the same document. *)
Theorem shards_after_gap_ignored (win32 : bool) (env env' : gmap string string)
    (n : nat) :
  (1 ≤ n)%nat → env !! shard_name n = None →
  (∀ i, (1 ≤ i ≤ n)%nat → env' !! shard_name i = env !! shard_name i) →
  env' !! "CAMOU_CONFIG" = env !! "CAMOU_CONFIG" →
  assemble win32 env' = assemble win32 env
  ∧ ∀ parse root_init,
      GetJson parse root_init win32 env' = GetJson parse root_init win32 env.
Proof.
  intros Hn Hgap Hsame Hsingle.
  assert (assemble win32 env' = assemble win32 env) as Heq.
  { unfold assemble.
    destruct (read_parts_total win32 env 1 []) as [parts Hparts].
    destruct (read_parts_total win32 env' 1 []) as [parts' Hparts'].
    rewrite Hparts, Hparts'. simpl.
    destruct (read_parts_Some _ _ _ _ _ _ Hparts) as (more & Hmore & Hs & He).
    destruct (read_parts_Some _ _ _ _ _ _ Hparts') as (more' & Hmore' & Hs' & He').
    simpl in Hmore, Hmore'. subst more more'.
    rewrite (shards_determined
               (λ i, get_env_utf8 win32 env (shard_name i))
               (λ i, get_env_utf8 win32 env' (shard_name i))
               parts parts' n); try done.
    - unfold get_env_utf8. by rewrite Hsingle.
    - apply get_env_utf8_None. by left.
    - intros i Hi. unfold get_env_utf8. by rewrite Hsame. }
  split; [done|]. intros parse root_init. unfold GetJson. by rewrite Heq.
Qed.

Lemma shards_after_gap_ignored_witness :
  assemble false {[ "CAMOU_CONFIG_1" := "{"; "CAMOU_CONFIG_2" := "}";
                    "CAMOU_CONFIG_4" := "ignored" ]}
  = assemble false {[ "CAMOU_CONFIG_1" := "{"; "CAMOU_CONFIG_2" := "}" ]}.
Proof.
  apply (shards_after_gap_ignored false
           {[ "CAMOU_CONFIG_1" := "{"; "CAMOU_CONFIG_2" := "}" ]}
           {[ "CAMOU_CONFIG_1" := "{"; "CAMOU_CONFIG_2" := "}";
              "CAMOU_CONFIG_4" := "ignored" ]} 3).
  - lia.
  - reflexivity.
  - intros i Hi.
    assert (i = 1 ∨ i = 2 ∨ i = 3)%nat as [->|[->| ->]] by lia; reflexivity.
  - reflexivity.
Defined.

(** ** More on the lowercased lists *)

Lemma tolower_not_upper (c : ascii) : is_upper (tolower c) = false.
Proof. destruct c as [[] [] [] [] [] [] [] []]; reflexivity. Qed.

Lemma tolower_keeps (c : ascii) : is_upper c = false → tolower c = c.
Proof. unfold tolower, is_upper. by intros ->. Qed.

Lemma transform_tolower_no_upper (s : string) :
  Forall (λ c, is_upper c = false) (list_ascii_of_string (transform_tolower s)).
Proof.
  induction s as [|c s IH]; simpl; constructor; [apply tolower_not_upper|done].
Qed.

Lemma transform_tolower_length (s : string) :
  String.length (transform_tolower s) = String.length s.
Proof. induction s as [|c s IH]; simpl; [done|]. by rewrite IH. Qed.

Lemma transform_tolower_keeps (s : string) :
  Forall (λ c, is_upper c = false) (list_ascii_of_string s) →
  transform_tolower s = s.
Proof.
  induction s as [|c s IH]; simpl; [done|].
  intros Hall. inversion Hall; subst. by rewrite tolower_keeps, IH.
Qed.

(** X17: no string returned by [GetStringListLower] contains one of the
    letters A..Z; the result has as many strings as [GetStringList] returns,
    each of the length of the original; lowercasing the result again changes
    nothing; and a list without uppercase letters is returned as it is. *)
Theorem GetStringListLower_no_uppercase (data : element) (earlier : list string)
    (key : string) :
  let result := (GetStringListLower data (run_calls data ∅ earlier) key).1 in
  Forall (λ s, Forall (λ c, is_upper c = false) (list_ascii_of_string s)) result
  ∧ Forall2 (λ s original, String.length s = String.length original)
      result (GetStringList data key)
  ∧ transform_tolower <$> result = result
  ∧ (Forall (λ s, Forall (λ c, is_upper c = false) (list_ascii_of_string s))
       (GetStringList data key) →
     result = GetStringList data key).
Proof.
  intros result.
  assert (result = transform_tolower <$> GetStringList data key) as ->.
  { apply GetStringListLower_result, run_calls_ok, cache_ok_empty. }
  generalize (GetStringList data key) as l. intros l.
  split; [|split; [|split]].
  - induction l as [|s l IH]; csimpl; constructor;
      [apply transform_tolower_no_upper|done].
  - induction l as [|s l IH]; csimpl; constructor;
      [apply transform_tolower_length|done].
  - induction l as [|s l IH]; csimpl; [done|]. rewrite IH. f_equal.
    apply transform_tolower_keeps, transform_tolower_no_upper.
  - induction 1 as [|s l Hs _ IH]; csimpl; [done|].
    by rewrite IH, transform_tolower_keeps.
Qed.

(** ** The variant and the typed getter *)

(** X18: [GLParam] and [MParamGL] agree on a parameter.  When [GLParam]
    returns the string, double or bool alternative, [MParamGL] asked for a
    string, a double or a bool returns the same value and not the default; when
    [GLParam] returns the null alternative or nothing, [MParamGL] returns the
    default for every type. *)
Theorem GLParam_MParamGL_agree (data : element) (pname : N) (isWebGL2 : bool) :
  (∀ s, GLParam data pname isWebGL2 = Some (gl_string s) →
        ∀ defaultValue,
          MParamGL c_string data pname defaultValue isWebGL2 = v_string s)
  ∧ (∀ d, GLParam data pname isWebGL2 = Some (gl_double d) →
          ∀ defaultValue,
            MParamGL c_double data pname defaultValue isWebGL2 = v_double d)
  ∧ (∀ b, GLParam data pname isWebGL2 = Some (gl_bool b) →
          ∀ defaultValue,
            MParamGL c_bool data pname defaultValue isWebGL2 = v_bool b)
  ∧ (GLParam data pname isWebGL2 = Some gl_nullptr
     ∨ GLParam data pname isWebGL2 = None →
     ∀ T defaultValue, MParamGL T data pname defaultValue isWebGL2 = defaultValue).
Proof.
  unfold GLParam, MParamGL. fold (parameters_domain isWebGL2).
  destruct (GetNested data (parameters_domain isWebGL2) (pretty pname))
    as [el|]; cbn [mbind option_bind].
  - split; [|split; [|split]].
    + intros s H defaultValue. destruct el; simplify_eq/=; done.
    + intros d H defaultValue. destruct el; simplify_eq/=; done.
    + intros b H defaultValue. destruct el; simplify_eq/=; done.
    + intros H T defaultValue.
      assert (get_bool el = None ∧ get_int64 el = None ∧ get_uint64 el = None
              ∧ get_double el = None ∧ get_string el = None)
        as (-> & -> & -> & -> & ->).
      { destruct H as [H|H]; destruct el; simplify_eq/=; done. }
      by repeat case_match.
  - split; [done|]. split; [done|]. split; [done|]. done.
Qed.

(** ** What the cache holds *)

(** X19: after any run of calls starting from the empty cache, the cache
    holds an entry exactly for the keys that were asked for, and each entry is
    the list [GetStringList] returns for its key with every string lowercased
    (A..Z replaced by a..z, every other character kept). *)
Theorem cache_contents (data : element) (keys : list string) (k : string) :
  run_calls data ∅ keys !! k
  = if decide (k ∈ keys) then Some (string_lowercase <$> GetStringList data k)
    else None.
Proof.
  rewrite <- transform_tolower_list_lowercase.
  assert (∀ cache,
    cache_ok data cache →
    run_calls data cache keys !! k
    = if decide (k ∈ keys)
      then Some (transform_tolower <$> GetStringList data k)
      else cache !! k) as Hgen.
  { induction keys as [|key keys IH]; intros cache Hok.
    - done.
    - change (run_calls data cache (key :: keys))
        with (run_calls data (GetStringListLower data cache key).2 keys).
      rewrite IH by by apply GetStringListLower_ok.
      destruct (decide (k ∈ keys)) as [Hin|Hnotin].
      + rewrite decide_True; [done|]. by right.
      + destruct (decide (k = key)) as [->|Hne].
        * rewrite decide_True by by left.
          rewrite GetStringListLower_commits. f_equal.
          by apply GetStringListLower_result.
        * rewrite decide_False by (intros [?|?]%elem_of_cons; done).
          unfold GetStringListLower, emplace.
          destruct (cache !! key); simpl; [done|].
          by rewrite lookup_insert_ne. }
  rewrite Hgen by apply cache_ok_empty.
  case_decide; [done|]. apply lookup_empty.
Qed.

Lemma cache_contents_witness :
  run_calls mixed_list_doc ∅ ["fonts"; "languages"] !! "fonts"
  = Some ["arial"; "courier"; "times"]
  ∧ run_calls mixed_list_doc ∅ ["fonts"; "languages"] !! "voices" = None.
Proof.
  split.
  - exact (cache_contents mixed_list_doc ["fonts"; "languages"] "fonts").
  - exact (cache_contents mixed_list_doc ["fonts"; "languages"] "voices").
Defined.
